(** * Binary message codec and hexdump of the Node.js buffer exercises

    Shallow embedding of [parseMessage], [buildMessage] and [hexdump]
    (the "Binary Protocol Parser / Builder" and "Hexdump Generator"
    challenges) together with the parts of Node's [Buffer] API, of
    [String.prototype] and of [console.log] that these functions call.

    Conventions.
    - A [Buffer] is a list of bytes of any length; [buf[i]] is list lookup,
      and a store out of range is ignored, as for every typed array.
    - JavaScript numbers are modelled by [Z]: the integer-valued numbers.
    - A JavaScript string is a list of UTF-16 code units ([jsString]);
      the strings printed by [hexdump] only hold characters below 128 and
      are modelled by Rocq strings.
    - An exception is a value of [NodeError]; a call that may throw
      returns a [completion], and statements in sequence are chained by
      [bind].
    - A buffer that a function mutates is threaded through its writes: each
      write returns the buffer after it.
    - [hexdump] returns nothing; its result here is the list of the calls
      of [console.log] it makes. *)

From Stdlib Require Import ZArith NArith Lia List String Ascii Bool.
From Stdlib.Strings Require Import Byte.
From stdpp Require Import base list.
Import ListNotations.
Open Scope Z_scope.

(** ** Bytes and buffers *)

Abbreviation Buffer := (list byte).

(** The number stored in a buffer cell. *)
Definition u8 (b : byte) : Z := Z.of_N (Byte.to_N b).

(** Storing a number in a cell keeps its low 8 bits. *)
Definition to_u8 (v : Z) : byte :=
  match Byte.of_N (Z.to_N (v mod 256)) with
  | Some b => b
  | None => x00
  end.

Definition byteLength (buf : Buffer) : Z := Z.of_nat (length buf).

(** [buf[i]]: [None] stands for [undefined]. *)
Definition getIndex (buf : Buffer) (i : Z) : option byte :=
  if i <? 0 then None else buf !! Z.to_nat i.

(** [buf[i] = v]. *)
Definition setIndex (buf : Buffer) (i v : Z) : Buffer :=
  if i <? 0 then buf else <[Z.to_nat i := to_u8 v]> buf.

(** [v >>> n] on 32-bit operands. *)
Definition ushr (v n : Z) : Z := Z.shiftr (v mod 2 ^ 32) n.

(** ** Exceptions *)

(** The two range errors of [node:buffer]. [ERR_OUT_OF_RANGE name lo hi v]
    is "The value of name is out of range. It must be >= lo and <= hi.
    Received v". *)
Inductive NodeError : Type :=
| ERR_OUT_OF_RANGE (name : string) (lo hi received : Z)
| ERR_BUFFER_OUT_OF_BOUNDS.

(** The [code] property of the error object. *)
Definition code (e : NodeError) : string :=
  match e with
  | ERR_OUT_OF_RANGE _ _ _ _ => "ERR_OUT_OF_RANGE"
  | ERR_BUFFER_OUT_OF_BOUNDS => "ERR_BUFFER_OUT_OF_BOUNDS"
  end.

Inductive completion (A : Type) : Type :=
| Normal (a : A)
| Throw (e : NodeError).
Arguments Normal {A} a.
Arguments Throw {A} e.

Definition bind {A B : Type} (c : completion A) (k : A -> completion B)
  : completion B :=
  match c with
  | Normal a => k a
  | Throw e => Throw e
  end.

Notation "x <- c ;; k" := (bind c (fun x => k))
  (at level 100, c at next level, right associativity).
Notation "c ;;; k" := (bind c (fun _ => k))
  (at level 100, right associativity).

(** ** Node's integer writes and reads *)

Definition boundsError {A : Type} (value len : Z) : completion A :=
  if len <? 0 then Throw ERR_BUFFER_OUT_OF_BOUNDS
  else Throw (ERR_OUT_OF_RANGE "offset" 0 len value).

Definition checkBounds (buf : Buffer) (offset byteLen : Z) : completion unit :=
  match getIndex buf offset, getIndex buf (offset + byteLen) with
  | Some _, Some _ => Normal tt
  | _, _ => boundsError offset (byteLength buf - (byteLen + 1))
  end.

Definition checkInt (value min max : Z) (buf : Buffer) (offset byteLen : Z)
  : completion unit :=
  if (value >? max) || (value <? min)
  then Throw (ERR_OUT_OF_RANGE "value" min max value)
  else checkBounds buf offset byteLen.

Definition writeUInt32BE (buf : Buffer) (value offset : Z) : completion Buffer :=
  checkInt value 0 (2 ^ 32 - 1) buf offset 3 ;;;
  let buf := setIndex buf (offset + 3) value in
  let value := ushr value 8 in
  let buf := setIndex buf (offset + 2) value in
  let value := ushr value 8 in
  let buf := setIndex buf (offset + 1) value in
  let value := ushr value 8 in
  let buf := setIndex buf offset value in
  Normal buf.

Definition writeUInt16BE (buf : Buffer) (value offset : Z) : completion Buffer :=
  checkInt value 0 (2 ^ 16 - 1) buf offset 1 ;;;
  let buf := setIndex buf offset (ushr value 8) in
  let buf := setIndex buf (offset + 1) value in
  Normal buf.

Definition writeUInt16LE (buf : Buffer) (value offset : Z) : completion Buffer :=
  checkInt value 0 (2 ^ 16 - 1) buf offset 1 ;;;
  let buf := setIndex buf offset value in
  let buf := setIndex buf (offset + 1) (ushr value 8) in
  Normal buf.

Definition readUint32BE (buf : Buffer) (offset : Z) : completion Z :=
  match getIndex buf offset, getIndex buf (offset + 3) with
  | Some first, Some last =>
      match getIndex buf (offset + 1), getIndex buf (offset + 2) with
      | Some b1, Some b2 =>
          Normal (u8 first * 2 ^ 24 + u8 b1 * 2 ^ 16 + u8 b2 * 2 ^ 8 + u8 last)
      | _, _ => boundsError offset (byteLength buf - 4)
      end
  | _, _ => boundsError offset (byteLength buf - 4)
  end.

Definition readUint16BE (buf : Buffer) (offset : Z) : completion Z :=
  match getIndex buf offset, getIndex buf (offset + 1) with
  | Some first, Some last => Normal (u8 first * 2 ^ 8 + u8 last)
  | _, _ => boundsError offset (byteLength buf - 2)
  end.

Definition readUint16LE (buf : Buffer) (offset : Z) : completion Z :=
  match getIndex buf offset, getIndex buf (offset + 1) with
  | Some first, Some last => Normal (u8 first + u8 last * 2 ^ 8)
  | _, _ => boundsError offset (byteLength buf - 2)
  end.

(** ** Strings and UTF-8 *)

(** A JavaScript string: its UTF-16 code units. *)
Abbreviation jsString := (list Z).

(** A literal whose characters are all below 256. *)
Definition lit (s : string) : jsString :=
  map (fun c => Z.of_N (N_of_ascii c)) (list_ascii_of_string s).

Definition isHighSurrogate (c : Z) : bool := (0xD800 <=? c) && (c <=? 0xDBFF).
Definition isLowSurrogate (c : Z) : bool := (0xDC00 <=? c) && (c <=? 0xDFFF).

(** U+FFFD in UTF-8. *)
Definition replacementBytes : Buffer := [xef; xbf; xbd].

(** The UTF-8 bytes of one code point. *)
Definition utf8EncodeCodePoint (c : Z) : Buffer :=
  if c <? 0x80 then [to_u8 c]
  else if c <? 0x800 then
    [to_u8 (Z.lor 0xC0 (Z.shiftr c 6)); to_u8 (Z.lor 0x80 (Z.land c 0x3F))]
  else if c <? 0x10000 then
    [to_u8 (Z.lor 0xE0 (Z.shiftr c 12));
     to_u8 (Z.lor 0x80 (Z.land (Z.shiftr c 6) 0x3F));
     to_u8 (Z.lor 0x80 (Z.land c 0x3F))]
  else
    [to_u8 (Z.lor 0xF0 (Z.shiftr c 18));
     to_u8 (Z.lor 0x80 (Z.land (Z.shiftr c 12) 0x3F));
     to_u8 (Z.lor 0x80 (Z.land (Z.shiftr c 6) 0x3F));
     to_u8 (Z.lor 0x80 (Z.land c 0x3F))].

(** [Buffer.from(string, "utf8")]: a surrogate pair is one code point, a
    lone surrogate is written as U+FFFD. *)
Fixpoint utf8Write (s : jsString) : Buffer :=
  match s with
  | [] => []
  | c :: rest =>
      if isHighSurrogate c then
        match rest with
        | d :: rest' =>
            if isLowSurrogate d then
              utf8EncodeCodePoint
                (0x10000 + (c - 0xD800) * 0x400 + (d - 0xDC00)) ++ utf8Write rest'
            else replacementBytes ++ utf8Write rest
        | [] => replacementBytes
        end
      else if isLowSurrogate c then replacementBytes ++ utf8Write rest
      else utf8EncodeCodePoint c ++ utf8Write rest
  end.

(** What [buildMessage] may receive as [payload]: a string, or bytes. *)
Inductive Payload : Type :=
| PString (s : jsString)
| PBuffer (b : Buffer).

(** [Buffer.from(payload, "utf8")]: a string is encoded, a buffer is copied
    (the encoding argument is then ignored). *)
Definition Buffer_from (payload : Payload) : Buffer :=
  match payload with
  | PString s => utf8Write s
  | PBuffer b => b
  end.

(** [Buffer.alloc(size)]: [size] zero bytes. *)
Definition Buffer_alloc (size : Z) : Buffer := replicate (Z.to_nat size) x00.

(** [source.copy(target, targetStart)]: copies as many bytes as fit. *)
Definition copy (source target : Buffer) (targetStart : Z) : Buffer :=
  let start := Z.to_nat targetStart in
  let n := Nat.min (length source) (length target - start) in
  take start target ++ take n source ++ drop (start + n) target.

(** ** The builder *)

Definition buildMessage (messageId flags : Z) (payload : Payload)
  : completion Buffer :=
  let payloadBuf := Buffer_from payload in
  let len := byteLength payloadBuf in
  let buf := Buffer_alloc (4 + 2 + 2 + len) in
  buf <- writeUInt32BE buf messageId 0 ;;
  buf <- writeUInt16BE buf len 4 ;;
  buf <- writeUInt16LE buf flags 6 ;;
  let buf := copy payloadBuf buf 8 in
  Normal buf.

(** ** Decoding UTF-8 *)

(** A multi-byte sequence under way: the code point so far, the number of
    continuation bytes still needed, and the range allowed for the next
    byte. *)
Inductive utf8Pending : Type :=
| Pending (cp : Z) (needed : nat) (lower upper : Z).

(** A byte met outside any sequence: the code points it emits and the
    sequence it opens. *)
Definition utf8Lead (b : Z) : list Z * option utf8Pending :=
  if b <=? 0x7F then ([b], None)
  else if (0xC2 <=? b) && (b <=? 0xDF) then
    ([], Some (Pending (Z.land b 0x1F) 1 0x80 0xBF))
  else if (0xE0 <=? b) && (b <=? 0xEF) then
    ([], Some (Pending (Z.land b 0xF) 2
                 (if b =? 0xE0 then 0xA0 else 0x80)
                 (if b =? 0xED then 0x9F else 0xBF)))
  else if (0xF0 <=? b) && (b <=? 0xF4) then
    ([], Some (Pending (Z.land b 0x7) 3
                 (if b =? 0xF0 then 0x90 else 0x80)
                 (if b =? 0xF4 then 0x8F else 0xBF)))
  else ([0xFFFD], None).

(** One byte of input. A byte that cannot continue the sequence under way
    ends it with U+FFFD and is then read again as a lead byte. *)
Definition utf8Step (st : option utf8Pending) (b : Z)
  : list Z * option utf8Pending :=
  match st with
  | None => utf8Lead b
  | Some (Pending cp needed lower upper) =>
      if (lower <=? b) && (b <=? upper) then
        let cp' := Z.lor (Z.shiftl cp 6) (Z.land b 0x3F) in
        match needed with
        | S (S n) => ([], Some (Pending cp' (S n) 0x80 0xBF))
        | _ => ([cp'], None)
        end
      else
        let '(out, st') := utf8Lead b in (0xFFFD :: out, st')
  end.

(** The code points of a byte sequence; a sequence cut short by the end of
    the input gives U+FFFD. *)
Fixpoint utf8Decode (st : option utf8Pending) (bytes : Buffer) : list Z :=
  match bytes with
  | [] => match st with None => [] | Some _ => [0xFFFD] end
  | b :: rest =>
      let '(out, st') := utf8Step st (u8 b) in out ++ utf8Decode st' rest
  end.

(** The UTF-16 code units of a code point. *)
Definition codeUnits (cp : Z) : jsString :=
  if cp <? 0x10000 then [cp]
  else [0xD800 + Z.shiftr (cp - 0x10000) 10;
        0xDC00 + Z.land (cp - 0x10000) 0x3FF].

(** [buf.toString("utf8", start)]: decodes from [start] to the end of the
    buffer. *)
Definition toString_utf8 (buf : Buffer) (start : Z) : jsString :=
  flat_map codeUnits (utf8Decode None (drop (Z.to_nat start) buf)).

(** ** The parser *)

(** The object literal [{ messageId, length, flags, payload }]. *)
Module Msg.
Record t : Type := mk {
  messageId : Z;
  length : Z;
  flags : Z;
  payload : jsString
}.
End Msg.

Definition binaryMessage : Buffer :=
  [x00; x00; x10; x20;  (* Message ID: 4128 *)
   x00; x05;            (* Length: 5 *)
   x01; x00;            (* Flags: 1 *)
   x48; x65; x6c; x6c; x6f (* "Hello" *)].

(** The text of [parseMessage] with the buffer it reads made explicit: the
    body never mentions its parameter [buf]; every read goes to the
    variable [binaryMessage] of the enclosing scope, here [scope]. *)
Definition parseMessageIn (scope : Buffer) (buf : Buffer) : completion Msg.t :=
  messageId <- readUint32BE scope 0 ;;
  len <- readUint16BE scope 4 ;;
  flags <- readUint16LE scope 6 ;;
  let payload := toString_utf8 scope 8 in
  Normal (Msg.mk messageId len flags payload).

(** [parseMessage] as the file defines it: the enclosing scope binds
    [binaryMessage] to the constant above. *)
Definition parseMessage (buf : Buffer) : completion Msg.t :=
  parseMessageIn binaryMessage buf.

(** ** Strings of the hexdump *)

Open Scope string_scope.
Open Scope list_scope.
Open Scope Z_scope.

Fixpoint fill (n : nat) (c : ascii) : string :=
  match n with
  | O => ""
  | S n' => String c (fill n' c)
  end.

(** [s.padStart(targetLength, c)] and [s.padEnd(targetLength, c)] for a
    one-character filler, as in every call of the source. *)
Definition padStart (s : string) (targetLength : Z) (c : ascii) : string :=
  String.append (fill (Z.to_nat (targetLength - Z.of_nat (String.length s))) c) s.

Definition padEnd (s : string) (targetLength : Z) (c : ascii) : string :=
  String.append s (fill (Z.to_nat (targetLength - Z.of_nat (String.length s))) c).

Definition hexDigit (d : Z) : ascii :=
  match String.get (Z.to_nat d) "0123456789abcdef" with
  | Some c => c
  | None => "0"%char
  end.

(** The digits of [n] in base 16 in front of [acc], most significant
    first. *)
Fixpoint hexDigits (fuel : nat) (n : Z) (acc : string) : string :=
  match fuel with
  | O => acc
  | S fuel' =>
      let acc' := String (hexDigit (n mod 16)) acc in
      if n / 16 =? 0 then acc' else hexDigits fuel' (n / 16) acc'
  end.

(** [n.toString(16)] for an integer [n]. *)
Definition toString16 (n : Z) : string :=
  if n <? 0 then String "-"%char (hexDigits (S (Z.to_nat (Z.log2 (- n)))) (- n) "")
  else hexDigits (S (Z.to_nat (Z.log2 n))) n "".

(** [String.fromCharCode(n)] for [n] below 256. *)
Definition fromCharCode (n : Z) : string :=
  String (ascii_of_N (Z.to_N n)) "".

(** [list.join(sep)]. *)
Definition join (sep : string) (l : list string) : string := String.concat sep l.

(** [buf.slice(start, end)]: negative indices count from the end, and both
    are clamped to the buffer. *)
Definition sliceIndex (len i : Z) : Z :=
  if i <? 0 then Z.max (len + i) 0 else Z.min i len.

Definition slice (buf : Buffer) (start stop : Z) : Buffer :=
  let s := sliceIndex (byteLength buf) start in
  let e := sliceIndex (byteLength buf) stop in
  take (Z.to_nat (e - s)) (drop (Z.to_nat s) buf).

(** ** The hexdump *)

(** One call of [console.log]: its arguments. *)
Abbreviation logCall := (list string).

(** What a call prints: its string arguments separated by one space (the
    first argument of the calls below is a string of hexadecimal digits,
    so it holds no format directive). *)
Definition printed (call : logCall) : string := join " " call.

Definition bytesPerLine : Z := 16.

(** The hex and ASCII renderings of the source's two [map] callbacks. *)
Definition hexOfByte (b : byte) : string := padStart (toString16 (u8 b)) 2 "0".

Definition asciiOfByte (b : byte) : string :=
  if (u8 b >=? 32) && (u8 b <=? 126) then fromCharCode (u8 b) else ".".

(** The body of the loop: the call made for the chunk at [offset]. *)
Definition hexdumpCall (buf : Buffer) (offset : Z) : logCall :=
  let line := slice buf offset (offset + bytesPerLine) in
  let hex := join " " (map hexOfByte line) in
  let ascii := join "" (map asciiOfByte line) in
  [padStart (toString16 offset) 4 "0"; "  "; padEnd hex (bytesPerLine * 3) " ";
   " "; ascii].

(** The [for] loop; [out] is what was logged so far. *)
Fixpoint hexdumpLoop (fuel : nat) (buf : Buffer) (offset : Z)
    (out : list logCall) : option (list logCall) :=
  match fuel with
  | O => None
  | S fuel' =>
      if offset <? byteLength buf then
        hexdumpLoop fuel' buf (offset + bytesPerLine) (out ++ [hexdumpCall buf offset])
      else Some out
  end.

(** [hexdump(buf)]: the calls of [console.log] it makes, in order. The
    loop runs at most once per byte. *)
Definition hexdump (buf : Buffer) : option (list logCall) :=
  hexdumpLoop (S (length buf)) buf 0 [].

(** ** Definitions used to state the properties *)

(** The eight header bytes as [buildMessage] lays them out. *)
Definition header (messageId len flags : Z) : Buffer :=
  [to_u8 (Z.shiftr messageId 24); to_u8 (Z.shiftr messageId 16);
   to_u8 (Z.shiftr messageId 8); to_u8 messageId;
   to_u8 (Z.shiftr len 8); to_u8 len;
   to_u8 flags; to_u8 (Z.shiftr flags 8)].

(** 65536 times the letter A. *)
Definition longPayload : Payload := PString (replicate (Z.to_nat 65536) 65).

(** A header that declares 9 payload bytes, followed by one byte. *)
Definition truncatedMessage : Buffer :=
  [x00; x00; x00; x01; x00; x09; x00; x00; x41].

(** Number of iterations of the loop of [hexdump] from offset [16 * k]. *)
Definition linesFrom (buf : Buffer) (k : nat) : nat :=
  Z.to_nat ((byteLength buf - 16 * Z.of_nat k + 15) / 16).

(** The value of a lowercase hexadecimal digit. *)
Definition hexValue (c : ascii) : option Z :=
  let n := Z.of_N (N_of_ascii c) in
  if (48 <=? n) && (n <=? 57) then Some (n - 48)
  else if (97 <=? n) && (n <=? 102) then Some (n - 87)
  else None.

(** The number written by a string of lowercase hexadecimal digits. *)
Fixpoint parseHexFrom (acc : Z) (s : string) : option Z :=
  match s with
  | EmptyString => Some acc
  | String c s' =>
      match hexValue c with
      | Some d => parseHexFrom (16 * acc + d) s'
      | None => None
      end
  end.

Definition parseHex (s : string) : option Z := parseHexFrom 0 s.

Definition parseHexByte (s : string) : option byte :=
  match parseHex s with
  | Some v => if v <? 256 then Some (to_u8 v) else None
  | None => None
  end.

Definition isWhitespace (c : ascii) : bool :=
  let n := N_of_ascii c in
  (n =? 32)%N || (n =? 9)%N || (n =? 10)%N || (n =? 13)%N.

(** The fields of [s] between whitespace characters. *)
Fixpoint fields (s : string) : list string :=
  match s with
  | EmptyString => [EmptyString]
  | String c s' =>
      if isWhitespace c then EmptyString :: fields s'
      else match fields s' with
           | w :: ws => String c w :: ws
           | [] => [String c EmptyString]
           end
  end.

Definition nonEmpty (s : string) : bool :=
  match s with EmptyString => false | String _ _ => true end.

(** [s] split on whitespace. *)
Definition words (s : string) : list string := List.filter nonEmpty (fields s).

Fixpoint allChars (P : ascii -> bool) (s : string) : bool :=
  match s with
  | EmptyString => true
  | String c s' => P c && allChars P s'
  end.

Definition isNewline (c : ascii) : bool := (N_of_ascii c =? 10)%N.

Definition noNewline (s : string) : bool := allChars (fun c => negb (isNewline c)) s.

(** Twenty bytes: the letters A to T. *)
Definition twentyBytes : Buffer :=
  [x41; x42; x43; x44; x45; x46; x47; x48; x49; x4a;
   x4b; x4c; x4d; x4e; x4f; x50; x51; x52; x53; x54].

(** 65537 zero bytes. *)
Definition largeBuffer : Buffer := replicate (Z.to_nat 65537) x00.

(** ** Further definitions: text, dump columns, directory trees *)

(** A string is well formed when every code unit is below 2^16 and the
    surrogates come in pairs, a high one followed by a low one. *)
Fixpoint wellFormed (s : jsString) : bool :=
  match s with
  | [] => true
  | c :: rest =>
      if isHighSurrogate c then
        match rest with
        | d :: rest' => isLowSurrogate d && wellFormed rest'
        | [] => false
        end
      else if isLowSurrogate c then false
      else (0 <=? c) && (c <? 0x10000) && wellFormed rest
  end.

Definition isScalar (cp : Z) : Prop :=
  0 <= cp < 0x110000 /\ ~ (0xD800 <= cp <= 0xDFFF).

(** [s.toWellFormed()]: every lone surrogate replaced by U+FFFD. *)
Fixpoint toWellFormed (s : jsString) : jsString :=
  match s with
  | [] => []
  | c :: rest =>
      if isHighSurrogate c then
        match rest with
        | d :: rest' =>
            if isLowSurrogate d then c :: d :: toWellFormed rest'
            else 0xFFFD :: toWellFormed rest
        | [] => [0xFFFD]
        end
      else if isLowSurrogate c then 0xFFFD :: toWellFormed rest
      else c :: toWellFormed rest
  end.

Definition codeUnitsInRange (s : jsString) : Prop :=
  Forall (fun c => 0 <= c < 0x10000) s.

(** The bytes read back from the hex column of a call, its third argument. *)
Definition hexColumnBytes (call : logCall) : list (option byte) :=
  match call !! 2%nat with
  | Some hexcol => map parseHexByte (words hexcol)
  | None => []
  end.

(** The bytes read back from the hex columns of a whole dump. *)
Definition undump (calls : list logCall) : list (option byte) :=
  flat_map hexColumnBytes calls.

(** The ASCII column of a call, its fifth argument. *)
Definition asciiColumn (call : logCall) : string :=
  match call !! 4%nat with
  | Some asc => asc
  | None => ""
  end.

(** The character the ASCII column shows for a byte. *)
Definition shownChar (b : byte) : ascii :=
  if (32 <=? u8 b) && (u8 b <=? 126) then ascii_of_byte b else "."%char.

(** The call logged for a chunk that starts at [offset]. *)
Definition lineOf (offset : Z) (chunk : Buffer) : logCall :=
  [padStart (toString16 offset) 4 "0"; "  ";
   padEnd (join " " (map hexOfByte chunk)) (bytesPerLine * 3) " "; " ";
   join "" (map asciiOfByte chunk)].

(** ** Directory traversal *)

(** How an awaited promise of [fs.promises] settles. *)
Inductive settled (A : Type) : Type :=
| Resolved (a : A)
| Rejected (errorCode : string).
Arguments Resolved {A} a.
Arguments Rejected {A} errorCode.

(** The state of a directory while [getAllFiles] runs: reading it fails
    with an error code, or gives its items. An item is its [name] and,
    when [item.isDirectory()] holds, the state of that subdirectory. *)
#[local] Unset Elimination Schemes.
Inductive Dir : Type :=
| Unreadable (errorCode : string)
| Listing (items : list (string * option Dir)).
#[local] Set Elimination Schemes.

Section Traversal.

(** [path.join], of Node's [path] module. *)
Variable pathJoin : string -> string -> string.

(** The inner function [traverse]; [files] is the array of the enclosing
    call, before and after. *)
Fixpoint traverse (currentDir : string) (d : Dir) (files : list string)
  : settled (list string) :=
  match d with
  | Unreadable e => Rejected e
  | Listing items =>
      (fix forOf (items : list (string * option Dir)) (files : list string)
         : settled (list string) :=
         match items with
         | [] => Resolved files
         | (name, kind) :: rest =>
             let fullPath := pathJoin currentDir name in
             match kind with
             | Some sub =>
                 match traverse fullPath sub files with
                 | Resolved files' => forOf rest files'
                 | Rejected e => Rejected e
                 end
             | None => forOf rest (files ++ [fullPath])
             end
         end) items files
  end.

(** The [for ... of] loop of [traverse], by name. *)
Fixpoint forOfItems (currentDir : string) (items : list (string * option Dir))
    (files : list string) : settled (list string) :=
  match items with
  | [] => Resolved files
  | (name, kind) :: rest =>
      let fullPath := pathJoin currentDir name in
      match kind with
      | Some sub =>
          match traverse fullPath sub files with
          | Resolved files' => forOfItems currentDir rest files'
          | Rejected e => Rejected e
          end
      | None => forOfItems currentDir rest (files ++ [fullPath])
      end
  end.

Definition getAllFiles (dir : string) (root : Dir) : settled (list string) :=
  traverse dir root [].

(** The paths of the entries below [d] that are not directories, depth
    first, in the order of the listings. *)
Fixpoint allPaths (currentDir : string) (d : Dir) : list string :=
  match d with
  | Unreadable _ => []
  | Listing items =>
      flat_map (fun item : string * option Dir =>
                  match item.2 with
                  | Some sub => allPaths (pathJoin currentDir item.1) sub
                  | None => [pathJoin currentDir item.1]
                  end) items
  end.

End Traversal.

(** The number of entries below [d] that are not directories. *)
Fixpoint fileCount (d : Dir) : nat :=
  match d with
  | Unreadable _ => 0%nat
  | Listing items =>
      list_sum (map (fun item : string * option Dir =>
                       match item.2 with
                       | Some sub => fileCount sub
                       | None => 1%nat
                       end) items)
  end.

(** The error of the first directory, in the order of the traversal, that
    cannot be read. *)
Fixpoint firstError (d : Dir) : option string :=
  match d with
  | Unreadable e => Some e
  | Listing items =>
      (fix first (items : list (string * option Dir)) : option string :=
         match items with
         | [] => None
         | (_, Some sub) :: rest =>
             match firstError sub with
             | Some e => Some e
             | None => first rest
             end
         | (_, None) :: rest => first rest
         end) items
  end.

(** [firstError] along a listing. *)
Fixpoint firstErrorItems (items : list (string * option Dir)) : option string :=
  match items with
  | [] => None
  | (_, Some sub) :: rest =>
      match firstError sub with
      | Some e => Some e
      | None => firstErrorItems rest
      end
  | (_, None) :: rest => firstErrorItems rest
  end.

(** A small tree: two files, a subdirectory with one file, and an empty
    subdirectory. *)
Definition sampleTree : Dir :=
  Listing [("a.txt", None);
           ("sub", Some (Listing [("b.txt", None)]));
           ("empty", Some (Listing []));
           ("c.txt", None)].

(** The same tree with a subdirectory that cannot be read. *)
Definition lockedTree : Dir :=
  Listing [("a.txt", None);
           ("sub", Some (Unreadable "EACCES"));
           ("c.txt", None)].

(** Joining with a slash, as [path.join] does for a directory path and an
    item name on POSIX. *)
Definition slashJoin (dir name : string) : string :=
  String.append dir (String.append "/" name).

(** * Properties *)

(** Powers of two of the field widths, as numerals. *)
Ltac pow2 :=
  change (2 ^ 32) with 4294967296 in *;
  change (2 ^ 24) with 16777216 in *;
  change (2 ^ 16) with 65536 in *;
  change (2 ^ 8) with 256 in *.

(** ** Buffer cells *)

Lemma u8_to_u8 v : u8 (to_u8 v) = v mod 256.
Proof.
  unfold u8, to_u8.
  destruct (Byte.of_N (Z.to_N (v mod 256))) eqn:E.
  - apply Byte.to_of_N in E. rewrite E. rewrite Z2N.id; [done|]. apply Z.mod_pos_bound. lia.
  - apply Byte.of_N_None_iff in E. pose proof (Z.mod_pos_bound v 256). lia.
Qed.

Lemma to_u8_u8 b : to_u8 (u8 b) = b.
Proof. destruct b; reflexivity. Qed.

Lemma u8_range b : 0 <= u8 b < 256.
Proof. unfold u8. pose proof (Byte.to_N_bounded b). lia. Qed.

(** ** Integer writes and reads *)

Lemma ushr_small v n : 0 <= v < 2 ^ 32 -> ushr v n = Z.shiftr v n.
Proof. intros H. unfold ushr. by rewrite Z.mod_small. Qed.

Lemma shiftr8_range v : 0 <= v < 2 ^ 32 -> 0 <= Z.shiftr v 8 < 2 ^ 32.
Proof.
  intros H. rewrite Z.shiftr_div_pow2 by lia. pow2.
  Z.div_mod_to_equations. lia.
Qed.

Lemma checkInt_in_range value min max buf offset byteLen :
  min <= value <= max ->
  checkInt value min max buf offset byteLen = checkBounds buf offset byteLen.
Proof.
  intros H. unfold checkInt.
  rewrite Z.gtb_ltb.
  replace (max <? value) with false by (symmetry; apply Z.ltb_ge; lia).
  replace (value <? min) with false by (symmetry; apply Z.ltb_ge; lia).
  reflexivity.
Qed.

Lemma checkInt_out_of_range value min max buf offset byteLen :
  value < min \/ max < value ->
  checkInt value min max buf offset byteLen
  = Throw (ERR_OUT_OF_RANGE "value" min max value).
Proof.
  intros H. unfold checkInt.
  destruct (value >? max) eqn:E1; [reflexivity|].
  destruct (value <? min) eqn:E2; [reflexivity|].
  rewrite Z.gtb_ltb in E1. apply Z.ltb_ge in E1, E2. lia.
Qed.

Lemma shiftr_shiftr8 v n : 0 <= n -> Z.shiftr (Z.shiftr v n) 8 = Z.shiftr v (n + 8).
Proof. intros. apply Z.shiftr_shiftr. lia. Qed.

Lemma writeUInt32BE_at_0 b0 b1 b2 b3 rest v :
  0 <= v < 2 ^ 32 ->
  writeUInt32BE (b0 :: b1 :: b2 :: b3 :: rest) v 0
  = Normal (to_u8 (Z.shiftr v 24) :: to_u8 (Z.shiftr v 16)
              :: to_u8 (Z.shiftr v 8) :: to_u8 v :: rest).
Proof.
  intros Hv. unfold writeUInt32BE.
  rewrite checkInt_in_range by (pow2; lia).
  pose proof (shiftr8_range _ Hv) as Hv1.
  pose proof (shiftr8_range _ Hv1) as Hv2.
  rewrite !ushr_small by assumption.
  rewrite !shiftr_shiftr8 by lia.
  reflexivity.
Qed.

Lemma writeUInt16BE_at_4 b0 b1 b2 b3 b4 b5 rest v :
  0 <= v < 2 ^ 16 ->
  writeUInt16BE (b0 :: b1 :: b2 :: b3 :: b4 :: b5 :: rest) v 4
  = Normal (b0 :: b1 :: b2 :: b3 :: to_u8 (Z.shiftr v 8) :: to_u8 v :: rest).
Proof.
  intros Hv. unfold writeUInt16BE.
  rewrite checkInt_in_range by (pow2; lia).
  rewrite ushr_small by (pow2; lia).
  reflexivity.
Qed.

Lemma writeUInt16LE_at_6 b0 b1 b2 b3 b4 b5 b6 b7 rest v :
  0 <= v < 2 ^ 16 ->
  writeUInt16LE (b0 :: b1 :: b2 :: b3 :: b4 :: b5 :: b6 :: b7 :: rest) v 6
  = Normal (b0 :: b1 :: b2 :: b3 :: b4 :: b5 :: to_u8 v :: to_u8 (Z.shiftr v 8) :: rest).
Proof.
  intros Hv. unfold writeUInt16LE.
  rewrite checkInt_in_range by (pow2; lia).
  rewrite ushr_small by (pow2; lia).
  reflexivity.
Qed.

Lemma readUint32BE_at_0 b0 b1 b2 b3 rest :
  readUint32BE (b0 :: b1 :: b2 :: b3 :: rest) 0
  = Normal (u8 b0 * 2 ^ 24 + u8 b1 * 2 ^ 16 + u8 b2 * 2 ^ 8 + u8 b3).
Proof. reflexivity. Qed.

Lemma readUint16BE_at_4 b0 b1 b2 b3 b4 b5 rest :
  readUint16BE (b0 :: b1 :: b2 :: b3 :: b4 :: b5 :: rest) 4
  = Normal (u8 b4 * 2 ^ 8 + u8 b5).
Proof. reflexivity. Qed.

Lemma readUint16LE_at_6 b0 b1 b2 b3 b4 b5 b6 b7 rest :
  readUint16LE (b0 :: b1 :: b2 :: b3 :: b4 :: b5 :: b6 :: b7 :: rest) 6
  = Normal (u8 b6 + u8 b7 * 2 ^ 8).
Proof. reflexivity. Qed.

(** ** The layout [buildMessage] writes *)

Lemma Buffer_alloc_message (n : nat) :
  Buffer_alloc (4 + 2 + 2 + Z.of_nat n)
  = [x00; x00; x00; x00; x00; x00; x00; x00] ++ replicate n x00.
Proof.
  unfold Buffer_alloc.
  replace (Z.to_nat (4 + 2 + 2 + Z.of_nat n)) with (8 + n)%nat by lia.
  reflexivity.
Qed.

Lemma copy_after_header (hdr source : Buffer) :
  length hdr = 8%nat ->
  copy source (hdr ++ replicate (length source) x00) 8 = hdr ++ source.
Proof.
  intros Hh. unfold copy.
  change (Z.to_nat 8) with 8%nat.
  rewrite length_app, length_replicate, Hh.
  replace (length source `min` (8 + length source - 8))%nat with (length source) by lia.
  rewrite take_app_length' by done.
  rewrite firstn_all.
  rewrite drop_ge by (rewrite length_app, length_replicate; lia).
  by rewrite app_nil_r.
Qed.

Lemma buildMessage_in_range messageId flags payload :
  0 <= messageId < 2 ^ 32 ->
  0 <= flags < 2 ^ 16 ->
  byteLength (Buffer_from payload) <= 65535 ->
  buildMessage messageId flags payload
  = Normal (header messageId (byteLength (Buffer_from payload)) flags
              ++ Buffer_from payload).
Proof.
  intros Hid Hfl Hlen. unfold buildMessage.
  set (pb := Buffer_from payload) in *.
  unfold byteLength in *.
  rewrite Buffer_alloc_message. cbn [app].
  rewrite writeUInt32BE_at_0 by assumption. cbn [bind].
  rewrite writeUInt16BE_at_4 by (change (2 ^ 16) with 65536; lia). cbn [bind].
  rewrite writeUInt16LE_at_6 by assumption. cbn [bind].
  f_equal.
  apply (copy_after_header (header messageId (Z.of_nat (length pb)) flags) pb).
  reflexivity.
Qed.

Lemma header_numbers messageId len flags :
  0 <= messageId < 2 ^ 32 -> 0 <= len < 2 ^ 16 -> 0 <= flags < 2 ^ 16 ->
  map u8 (header messageId len flags)
  = [messageId / 2 ^ 24; messageId / 2 ^ 16 mod 256; messageId / 2 ^ 8 mod 256;
     messageId mod 256; len / 2 ^ 8; len mod 256; flags mod 256; flags / 2 ^ 8].
Proof.
  intros Hid Hlen Hfl. unfold header. cbn [map].
  rewrite !u8_to_u8, !Z.shiftr_div_pow2 by lia.
  pow2.
  repeat f_equal; Z.div_mod_to_equations; lia.
Qed.

Lemma header_reads messageId len flags rest :
  0 <= messageId < 2 ^ 32 -> 0 <= len < 2 ^ 16 -> 0 <= flags < 2 ^ 16 ->
  readUint32BE (header messageId len flags ++ rest) 0 = Normal messageId
  /\ readUint16BE (header messageId len flags ++ rest) 4 = Normal len
  /\ readUint16LE (header messageId len flags ++ rest) 6 = Normal flags.
Proof.
  intros Hid Hlen Hfl. unfold header. cbn [app].
  rewrite readUint32BE_at_0, readUint16BE_at_4, readUint16LE_at_6.
  rewrite !u8_to_u8, !Z.shiftr_div_pow2 by lia.
  pow2.
  repeat split; f_equal; Z.div_mod_to_equations; lia.
Qed.

(** Claim C5 (encoder wire layout). For every [messageId] in [0, 2^32),
    [flags] in [0, 2^16) and payload of at most 65535 bytes, [buildMessage]
    returns a buffer of exactly 8 + len(payload) bytes that holds
    [messageId] in bytes 0-3, most significant byte first, the payload
    length in bytes 4-5, most significant byte first, [flags] in bytes 6-7,
    least significant byte first, and the payload bytes unchanged from
    offset 8 on. In particular [buildMessage(4128, 1, "Hello")] is
    00 00 10 20 00 05 01 00 48 65 6c 6c 6f. *)
Theorem buildMessage_wire_layout :
  (forall (messageId flags : Z) (payload : Payload),
      0 <= messageId < 2 ^ 32 ->
      0 <= flags < 2 ^ 16 ->
      byteLength (Buffer_from payload) <= 65535 ->
      exists buf : Buffer,
        buildMessage messageId flags payload = Normal buf
        /\ byteLength buf = 8 + byteLength (Buffer_from payload)
        /\ map u8 (take 8 buf)
           = [messageId / 2 ^ 24; messageId / 2 ^ 16 mod 256;
              messageId / 2 ^ 8 mod 256; messageId mod 256;
              byteLength (Buffer_from payload) / 2 ^ 8;
              byteLength (Buffer_from payload) mod 256;
              flags mod 256; flags / 2 ^ 8]
        /\ readUint32BE buf 0 = Normal messageId
        /\ readUint16BE buf 4 = Normal (byteLength (Buffer_from payload))
        /\ readUint16LE buf 6 = Normal flags
        /\ drop 8 buf = Buffer_from payload)
  /\ buildMessage 4128 1 (PString (lit "Hello"))
     = Normal [x00; x00; x10; x20; x00; x05; x01; x00; x48; x65; x6c; x6c; x6f].
Proof.
  split; [|reflexivity].
  intros messageId flags payload Hid Hfl Hlen.
  assert (Hlen' : 0 <= byteLength (Buffer_from payload) < 2 ^ 16)
    by (unfold byteLength in *; change (2 ^ 16) with 65536; lia).
  eexists. split; [by apply buildMessage_in_range|].
  destruct (header_reads messageId _ flags (Buffer_from payload) Hid Hlen' Hfl)
    as (R1 & R2 & R3).
  repeat split; try assumption.
  - unfold byteLength. rewrite length_app. cbn [header length]. lia.
  - change (take 8 (header messageId (byteLength (Buffer_from payload)) flags
                      ++ Buffer_from payload))
      with (header messageId (byteLength (Buffer_from payload)) flags).
    by apply header_numbers.
Qed.

Lemma buildMessage_wire_layout_witness :
  exists buf : Buffer,
    buildMessage 5000 3 (PString (lit "Test")) = Normal buf
    /\ byteLength buf = 8 + byteLength (Buffer_from (PString (lit "Test")))
    /\ map u8 (take 8 buf)
       = [5000 / 2 ^ 24; 5000 / 2 ^ 16 mod 256; 5000 / 2 ^ 8 mod 256; 5000 mod 256;
          byteLength (Buffer_from (PString (lit "Test"))) / 2 ^ 8;
          byteLength (Buffer_from (PString (lit "Test"))) mod 256;
          3 mod 256; 3 / 2 ^ 8]
    /\ readUint32BE buf 0 = Normal 5000
    /\ readUint16BE buf 4 = Normal (byteLength (Buffer_from (PString (lit "Test"))))
    /\ readUint16LE buf 6 = Normal 3
    /\ drop 8 buf = Buffer_from (PString (lit "Test")).
Proof.
  apply (proj1 buildMessage_wire_layout 5000 3 (PString (lit "Test"))).
  - change (2 ^ 32) with 4294967296. lia.
  - change (2 ^ 16) with 65536. lia.
  - vm_compute. discriminate.
Defined.

(** ** The range errors of [buildMessage] *)

Lemma buildMessage_messageId_out_of_range messageId flags payload :
  messageId < 0 \/ 2 ^ 32 <= messageId ->
  buildMessage messageId flags payload
  = Throw (ERR_OUT_OF_RANGE "value" 0 (2 ^ 32 - 1) messageId).
Proof.
  intros H. unfold buildMessage, writeUInt32BE.
  rewrite checkInt_out_of_range by lia. reflexivity.
Qed.

Lemma buildMessage_length_out_of_range messageId flags payload :
  0 <= messageId < 2 ^ 32 ->
  65535 < byteLength (Buffer_from payload) ->
  buildMessage messageId flags payload
  = Throw (ERR_OUT_OF_RANGE "value" 0 (2 ^ 16 - 1) (byteLength (Buffer_from payload))).
Proof.
  intros Hid Hlen. unfold buildMessage, byteLength in *.
  rewrite Buffer_alloc_message. cbn [app].
  rewrite writeUInt32BE_at_0 by assumption. cbn [bind].
  unfold writeUInt16BE.
  rewrite checkInt_out_of_range by (change (2 ^ 16) with 65536; lia).
  reflexivity.
Qed.

Lemma buildMessage_flags_out_of_range messageId flags payload :
  0 <= messageId < 2 ^ 32 ->
  byteLength (Buffer_from payload) <= 65535 ->
  flags < 0 \/ 2 ^ 16 <= flags ->
  buildMessage messageId flags payload
  = Throw (ERR_OUT_OF_RANGE "value" 0 (2 ^ 16 - 1) flags).
Proof.
  intros Hid Hlen Hfl. unfold buildMessage, byteLength in *.
  rewrite Buffer_alloc_message. cbn [app].
  rewrite writeUInt32BE_at_0 by assumption. cbn [bind].
  rewrite writeUInt16BE_at_4 by (change (2 ^ 16) with 65536; lia). cbn [bind].
  unfold writeUInt16LE.
  rewrite checkInt_out_of_range by lia.
  reflexivity.
Qed.

Lemma longPayload_length : byteLength (Buffer_from longPayload) = 65536.
Proof. vm_compute. reflexivity. Qed.

Lemma buildMessage_longPayload :
  buildMessage 1 1 longPayload = Throw (ERR_OUT_OF_RANGE "value" 0 65535 65536).
Proof.
  assert (Hid : 0 <= 1 < 2 ^ 32) by (change (2 ^ 32) with 4294967296; lia).
  assert (Hlen : 65535 < byteLength (Buffer_from longPayload))
    by (rewrite longPayload_length; lia).
  pose proof (buildMessage_length_out_of_range 1 1 longPayload Hid Hlen) as H.
  rewrite longPayload_length in H. exact H.
Qed.

(** Claim C6 as stated fails: for a payload of 65536 bytes [buildMessage]
    throws, but the exception is Node's [ERR_OUT_OF_RANGE], not an error
    named PayloadTooLarge. *)
Lemma buildMessage_no_PayloadTooLarge :
  65535 < byteLength (Buffer_from longPayload)
  /\ ~ (exists e : NodeError,
          buildMessage 1 1 longPayload = Throw e /\ code e = "PayloadTooLarge").
Proof.
  split; [rewrite longPayload_length; lia|].
  intros (e & He & Hc).
  rewrite buildMessage_longPayload in He.
  injection He as <-. discriminate Hc.
Qed.

(** Claim C6, amended. For every payload of more than 65535 bytes
    [buildMessage] returns no buffer: it throws Node's range error, code
    [ERR_OUT_OF_RANGE]. When [messageId] is in range the error is the one
    [writeUInt16BE] raises for the length, "value" out of [0, 65535]. *)
Theorem buildMessage_payload_too_large (messageId flags : Z) (payload : Payload) :
  65535 < byteLength (Buffer_from payload) ->
  exists e : NodeError,
    buildMessage messageId flags payload = Throw e
    /\ code e = "ERR_OUT_OF_RANGE"
    /\ (0 <= messageId < 2 ^ 32 ->
        e = ERR_OUT_OF_RANGE "value" 0 65535 (byteLength (Buffer_from payload))).
Proof.
  intros Hlen.
  destruct (Z_lt_dec messageId 0) as [Hneg|Hnn];
    [|destruct (Z_le_dec (2 ^ 32) messageId) as [Hbig|Hsmall]].
  - eexists. split; [apply buildMessage_messageId_out_of_range; lia|].
    split; [reflexivity|intros; lia].
  - eexists. split; [apply buildMessage_messageId_out_of_range; lia|].
    split; [reflexivity|intros; lia].
  - eexists. split; [apply buildMessage_length_out_of_range; [lia|assumption]|].
    split; [reflexivity|intros; reflexivity].
Qed.

Lemma buildMessage_payload_too_large_witness :
  exists e : NodeError,
    buildMessage 1 1 longPayload = Throw e
    /\ code e = "ERR_OUT_OF_RANGE"
    /\ (0 <= 1 < 2 ^ 32 ->
        e = ERR_OUT_OF_RANGE "value" 0 65535 (byteLength (Buffer_from longPayload))).
Proof.
  apply (buildMessage_payload_too_large 1 1 longPayload).
  rewrite longPayload_length. lia.
Defined.

(** Claim C7 as stated fails: for [messageId] = 2^32 [buildMessage]
    throws, but the exception is Node's [ERR_OUT_OF_RANGE], not an error
    named FieldOverflow. *)
Lemma buildMessage_no_FieldOverflow :
  ~ (exists e : NodeError,
       buildMessage 4294967296 0 (PString (lit "Test")) = Throw e
       /\ code e = "FieldOverflow").
Proof.
  intros (e & He & Hc).
  rewrite buildMessage_messageId_out_of_range in He by (change (2 ^ 32) with 4294967296; lia).
  injection He as <-. discriminate Hc.
Qed.

(** Claim C7, amended. For every [messageId] outside [0, 2^32) or [flags]
    outside [0, 2^16), [buildMessage] returns no buffer, so nothing wrapped
    or truncated is encoded: it throws Node's range error, code
    [ERR_OUT_OF_RANGE]; for [messageId] the error of [writeUInt32BE], and
    for [flags] (with the other two fields in range) the error of
    [writeUInt16LE]. *)
Theorem buildMessage_field_out_of_range (messageId flags : Z) (payload : Payload) :
  (messageId < 0 \/ 2 ^ 32 <= messageId) \/ (flags < 0 \/ 2 ^ 16 <= flags) ->
  exists e : NodeError,
    buildMessage messageId flags payload = Throw e
    /\ code e = "ERR_OUT_OF_RANGE"
    /\ (messageId < 0 \/ 2 ^ 32 <= messageId ->
        e = ERR_OUT_OF_RANGE "value" 0 4294967295 messageId)
    /\ (0 <= messageId < 2 ^ 32 -> byteLength (Buffer_from payload) <= 65535 ->
        e = ERR_OUT_OF_RANGE "value" 0 65535 flags).
Proof.
  intros H.
  destruct (Z_lt_dec messageId 0) as [Hneg|Hnn];
    [|destruct (Z_le_dec (2 ^ 32) messageId) as [Hbig|Hsmall]].
  - eexists. split; [apply buildMessage_messageId_out_of_range; lia|].
    split; [reflexivity|]. split; intros; [reflexivity|lia].
  - eexists. split; [apply buildMessage_messageId_out_of_range; lia|].
    split; [reflexivity|]. split; intros; [reflexivity|lia].
  - destruct (Z_le_dec (byteLength (Buffer_from payload)) 65535) as [Hl|Hl].
    + eexists. split; [apply buildMessage_flags_out_of_range; lia|].
      split; [reflexivity|]. split; intros; [lia|reflexivity].
    + eexists. split; [apply buildMessage_length_out_of_range; lia|].
      split; [reflexivity|]. split; intros; lia.
Qed.

Lemma buildMessage_field_out_of_range_witness :
  exists e : NodeError,
    buildMessage 5000 65536 (PString (lit "Test")) = Throw e
    /\ code e = "ERR_OUT_OF_RANGE"
    /\ (5000 < 0 \/ 2 ^ 32 <= 5000 ->
        e = ERR_OUT_OF_RANGE "value" 0 4294967295 5000)
    /\ (0 <= 5000 < 2 ^ 32 ->
        byteLength (Buffer_from (PString (lit "Test"))) <= 65535 ->
        e = ERR_OUT_OF_RANGE "value" 0 65535 65536).
Proof.
  apply (buildMessage_field_out_of_range 5000 65536 (PString (lit "Test"))).
  right. right. change (2 ^ 16) with 65536. lia.
Defined.

(** The errors for an oversized payload and for an oversized flags value
    are one and the same exception. *)
Lemma range_errors_coincide :
  buildMessage 1 65536 (PString (lit "Test")) = buildMessage 1 1 longPayload.
Proof.
  rewrite buildMessage_longPayload.
  rewrite buildMessage_flags_out_of_range; [reflexivity| | |].
  - change (2 ^ 32) with 4294967296; lia.
  - vm_compute. discriminate.
  - right. change (2 ^ 16) with 65536. lia.
Qed.

(** ** The parser *)

Lemma parseMessageIn_ignores_buf scope buf buf' :
  parseMessageIn scope buf = parseMessageIn scope buf'.
Proof. reflexivity. Qed.

Lemma parseMessageIn_header b0 b1 b2 b3 b4 b5 b6 b7 rest buf :
  parseMessageIn (b0 :: b1 :: b2 :: b3 :: b4 :: b5 :: b6 :: b7 :: rest) buf
  = Normal (Msg.mk (u8 b0 * 2 ^ 24 + u8 b1 * 2 ^ 16 + u8 b2 * 2 ^ 8 + u8 b3)
                   (u8 b4 * 2 ^ 8 + u8 b5)
                   (u8 b6 + u8 b7 * 2 ^ 8)
                   (flat_map codeUnits (utf8Decode None rest))).
Proof. reflexivity. Qed.

Lemma parseMessage_result buf :
  parseMessage buf = Normal (Msg.mk 4128 5 1 (lit "Hello")).
Proof. reflexivity. Qed.

Lemma utf8Decode_ascii (bytes : Buffer) :
  Forall (fun b => u8 b < 128) bytes ->
  flat_map codeUnits (utf8Decode None bytes) = map u8 bytes.
Proof.
  induction 1 as [|b bytes Hb _ IH]; [reflexivity|].
  cbn [utf8Decode utf8Step map]. unfold utf8Lead.
  replace (u8 b <=? 127) with true by (symmetry; apply Z.leb_le; lia).
  cbn [app flat_map]. rewrite IH. unfold codeUnits.
  replace (u8 b <? 65536) with true by (symmetry; apply Z.ltb_lt; lia).
  reflexivity.
Qed.

(** Claim C10. [parseMessage] is a constant function: its body reads the
    module-level [binaryMessage], never its parameter, so for every buffer,
    the empty one included, it returns
    [{messageId: 4128, length: 5, flags: 1, payload: "Hello"}], and any two
    buffers give the same result. *)
Theorem parseMessage_constant :
  (forall buf : Buffer,
      parseMessage buf = Normal (Msg.mk 4128 5 1 (lit "Hello")))
  /\ (forall buf buf' : Buffer, parseMessage buf = parseMessage buf').
Proof. split; reflexivity. Qed.

(** Claim C1 (round trip), at the input the source itself tries: the
    bytes [buildMessage(5000, 3, "Test")] builds are parsed to
    [{messageId: 4128, length: 5, flags: 1, payload: "Hello"}] and not to
    [{messageId: 5000, length: 4, flags: 3, payload: "Test"}]. *)
Theorem parseMessage_buildMessage_Test :
  exists wire : Buffer,
    buildMessage 5000 3 (PString (lit "Test")) = Normal wire
    /\ parseMessage wire = Normal (Msg.mk 4128 5 1 (lit "Hello"))
    /\ parseMessage wire <> Normal (Msg.mk 5000 4 3 (lit "Test")).
Proof.
  eexists. split; [reflexivity|]. split; [reflexivity|].
  intros H. discriminate H.
Qed.

(** Claim C4 (length invariant). Whenever [parseMessage] returns a record,
    its [length] field is the number of bytes of its [payload] in UTF-8,
    which is also its number of characters. *)
Theorem parseMessage_length_invariant (buf : Buffer) (m : Msg.t) :
  parseMessage buf = Normal m ->
  Msg.length m = byteLength (utf8Write (Msg.payload m))
  /\ Msg.length m = Z.of_nat (length (Msg.payload m)).
Proof.
  intros H. rewrite parseMessage_result in H. injection H as <-.
  split; reflexivity.
Qed.

Lemma parseMessage_length_invariant_witness :
  Msg.length (Msg.mk 4128 5 1 (lit "Hello"))
  = byteLength (utf8Write (Msg.payload (Msg.mk 4128 5 1 (lit "Hello"))))
  /\ Msg.length (Msg.mk 4128 5 1 (lit "Hello"))
     = Z.of_nat (length (Msg.payload (Msg.mk 4128 5 1 (lit "Hello")))).
Proof.
  apply (parseMessage_length_invariant [x01; x02; x03]).
  reflexivity.
Defined.

(** Claim C2, at a buffer of 5 bytes (and at the empty one): [parseMessage]
    does not fail. It never reads the buffer it is given, so it returns
    the record of [binaryMessage],
    [{messageId: 4128, length: 5, flags: 1, payload: "Hello"}]. *)
Theorem parseMessage_short_buffer :
  byteLength [x01; x02; x03; x04; x05] < 8
  /\ parseMessage [x01; x02; x03; x04; x05] = Normal (Msg.mk 4128 5 1 (lit "Hello"))
  /\ parseMessage [] = Normal (Msg.mk 4128 5 1 (lit "Hello"))
  /\ ~ (exists e : NodeError, parseMessage [x01; x02; x03; x04; x05] = Throw e).
Proof.
  split; [reflexivity|]. split; [reflexivity|]. split; [reflexivity|].
  intros (e & He). rewrite parseMessage_result in He. discriminate He.
Qed.

(** What the three reads of the body do when the buffer they read has
    fewer than 8 bytes: Node's range error, [ERR_BUFFER_OUT_OF_BOUNDS]
    below 4 bytes (from [readUint32BE]) and [ERR_OUT_OF_RANGE] on "offset"
    from 4 to 7 bytes (from [readUint16BE] at 4, then [readUint16LE] at 6). *)
Lemma parseMessageIn_short_scope (scope buf : Buffer) :
  byteLength scope < 8 ->
  parseMessageIn scope buf
  = Throw (if byteLength scope <? 4 then ERR_BUFFER_OUT_OF_BOUNDS
           else if byteLength scope <? 6
                then ERR_OUT_OF_RANGE "offset" 0 (byteLength scope - 2) 4
                else ERR_OUT_OF_RANGE "offset" 0 (byteLength scope - 2) 6).
Proof.
  intros H.
  destruct scope as [|b0 [|b1 [|b2 [|b3 [|b4 [|b5 [|b6 [|b7 rest]]]]]]]];
    try reflexivity.
  unfold byteLength in H. cbn [length] in H. lia.
Qed.

(** Claim C3, at two buffers of at least 8 bytes. On a header that declares
    9 payload bytes followed by a single byte, [parseMessage] does not
    fail; on a header that declares 1 payload byte followed by the two
    bytes "AB", its payload is not "A". Both times it returns the record
    of [binaryMessage], since it never reads the buffer it is given. *)
Theorem parseMessage_truncated_payload :
  (8 <= byteLength truncatedMessage
   /\ readUint16BE truncatedMessage 4 = Normal 9
   /\ byteLength truncatedMessage - 8 < 9
   /\ parseMessage truncatedMessage = Normal (Msg.mk 4128 5 1 (lit "Hello"))
   /\ ~ (exists e : NodeError, parseMessage truncatedMessage = Throw e))
  /\ (readUint16BE [x00; x00; x00; x01; x00; x01; x00; x00; x41; x42] 4 = Normal 1
      /\ parseMessage [x00; x00; x00; x01; x00; x01; x00; x00; x41; x42]
         = Normal (Msg.mk 4128 5 1 (lit "Hello"))
      /\ lit "Hello" <> lit "A").
Proof.
  split.
  - split; [discriminate|]. split; [reflexivity|]. split; [reflexivity|].
    split; [reflexivity|].
    intros (e & He). rewrite parseMessage_result in He. discriminate He.
  - split; [reflexivity|]. split; [reflexivity|]. discriminate.
Qed.

(** What the body does when the buffer it reads has at least 8 bytes: the
    reads succeed whatever the length field holds, [length] is that field,
    and [payload] is the decoding of every byte from offset 8 on. *)
Lemma parseMessageIn_reads_to_end (scope buf : Buffer) :
  8 <= byteLength scope ->
  exists m : Msg.t,
    parseMessageIn scope buf = Normal m
    /\ readUint32BE scope 0 = Normal (Msg.messageId m)
    /\ readUint16BE scope 4 = Normal (Msg.length m)
    /\ readUint16LE scope 6 = Normal (Msg.flags m)
    /\ Msg.payload m = flat_map codeUnits (utf8Decode None (drop 8 scope))
    /\ (Forall (fun b => u8 b < 128) (drop 8 scope) ->
        Msg.payload m = map u8 (drop 8 scope)).
Proof.
  intros H.
  destruct scope as [|b0 [|b1 [|b2 [|b3 [|b4 [|b5 [|b6 [|b7 rest]]]]]]]];
    try (unfold byteLength in H; cbn [length] in H; lia).
  eexists. split; [apply parseMessageIn_header|].
  repeat split. cbn [Msg.payload drop]. apply utf8Decode_ascii.
Qed.

Example parseMessageIn_truncated :
  parseMessageIn truncatedMessage [] = Normal (Msg.mk 1 9 0 (lit "A")).
Proof. reflexivity. Qed.

Example parseMessageIn_trailing :
  parseMessageIn [x00; x00; x00; x01; x00; x01; x00; x00; x41; x42] []
  = Normal (Msg.mk 1 1 0 (lit "AB")).
Proof. reflexivity. Qed.

(** ** Reading back what [buildMessage] wrote *)

(** The letters e-acute and euro sign and one emoji: two, three and four
    bytes in UTF-8, and back. *)
Example utf8_there_and_back :
  utf8Write [0xE9; 0x20AC; 0xD83D; 0xDE00]
  = [xc3; xa9; xe2; x82; xac; xf0; x9f; x98; x80]
  /\ toString_utf8 [xc3; xa9; xe2; x82; xac; xf0; x9f; x98; x80] 0
     = [0xE9; 0x20AC; 0xD83D; 0xDE00].
Proof. split; reflexivity. Qed.

Lemma utf8Write_ascii (s : jsString) :
  Forall (fun c => 0 <= c < 128) s -> utf8Write s = map to_u8 s.
Proof.
  induction 1 as [|c s Hc _ IH]; [reflexivity|].
  cbn [utf8Write map]. unfold isHighSurrogate, isLowSurrogate, utf8EncodeCodePoint.
  replace (55296 <=? c) with false by (symmetry; apply Z.leb_gt; lia).
  replace (56320 <=? c) with false by (symmetry; apply Z.leb_gt; lia).
  replace (c <? 128) with true by (symmetry; apply Z.ltb_lt; lia).
  cbn [andb app]. by rewrite IH.
Qed.

(** Reading the bytes that [buildMessage] produced gives back its
    arguments, here for a payload of ASCII characters. *)
Lemma parseMessageIn_buildMessage (messageId flags : Z) (s : jsString) (buf : Buffer) :
  0 <= messageId < 2 ^ 32 ->
  0 <= flags < 2 ^ 16 ->
  Forall (fun c => 0 <= c < 128) s ->
  Z.of_nat (length s) <= 65535 ->
  exists wire : Buffer,
    buildMessage messageId flags (PString s) = Normal wire
    /\ parseMessageIn wire buf = Normal (Msg.mk messageId (Z.of_nat (length s)) flags s).
Proof.
  intros Hid Hfl Hs Hlen.
  assert (Hpb : Buffer_from (PString s) = map to_u8 s) by (by apply utf8Write_ascii).
  assert (Hbl : byteLength (Buffer_from (PString s)) = Z.of_nat (length s))
    by (unfold byteLength; by rewrite Hpb, length_map).
  eexists. split; [apply buildMessage_in_range; (assumption || lia)|].
  rewrite Hbl, Hpb.
  destruct (header_reads messageId (Z.of_nat (length s)) flags (map to_u8 s))
    as (R1 & R2 & R3); [assumption|change (2 ^ 16) with 65536; lia|assumption|].
  unfold parseMessageIn. rewrite R1, R2, R3. cbn [bind]. do 2 f_equal.
  unfold toString_utf8. change (drop (Z.to_nat 8) (header ?a ?b ?c ++ ?r)) with r.
  assert (Hmap : map u8 (map to_u8 s) = s).
  { clear -Hs. induction Hs as [|c s Hc _ IH]; [reflexivity|].
    cbn [map]. rewrite IH, u8_to_u8, Z.mod_small by lia. reflexivity. }
  rewrite utf8Decode_ascii; [exact Hmap|].
  clear -Hs. induction Hs as [|c s Hc _ IH]; constructor; [|assumption].
  rewrite u8_to_u8, Z.mod_small by lia. lia.
Qed.

(** ** The loop of [hexdump] *)

Section Loop.
Variable buf : Buffer.

Lemma linesFrom_done k :
  byteLength buf <= 16 * Z.of_nat k -> linesFrom buf k = 0%nat.
Proof. intros H. unfold linesFrom. Z.div_mod_to_equations. lia. Qed.

Lemma linesFrom_step k :
  16 * Z.of_nat k < byteLength buf -> linesFrom buf k = S (linesFrom buf (S k)).
Proof. intros H. unfold linesFrom. Z.div_mod_to_equations. lia. Qed.

Lemma linesFrom_0 : Z.of_nat (linesFrom buf 0) = (byteLength buf + 15) / 16.
Proof. unfold linesFrom, byteLength. Z.div_mod_to_equations. lia. Qed.

Lemma linesFrom_0_lt (k : nat) :
  (k < linesFrom buf 0)%nat <-> 16 * Z.of_nat k < byteLength buf.
Proof. unfold linesFrom, byteLength. split; intros H; Z.div_mod_to_equations; lia. Qed.

(** With fuel left for its [n] remaining iterations, the loop started at
    offset [16 * k] logs the calls for the chunks [k], ..., [k + n - 1]. *)
Lemma hexdumpLoop_calls n :
  forall (k fuel : nat) (out : list logCall),
    n = linesFrom buf k ->
    (n < fuel)%nat ->
    hexdumpLoop fuel buf (16 * Z.of_nat k) out
    = Some (out ++ map (fun i => hexdumpCall buf (16 * Z.of_nat i)) (seq k n)).
Proof.
  induction n as [|n IH]; intros k fuel out Hn Hfuel;
    (destruct fuel as [|fuel]; [lia|]); cbn [hexdumpLoop].
  - destruct (Z.ltb_spec (16 * Z.of_nat k) (byteLength buf)) as [Hlt|Hge].
    + rewrite linesFrom_step in Hn by assumption. discriminate Hn.
    + cbn [seq map]. by rewrite app_nil_r.
  - destruct (Z.ltb_spec (16 * Z.of_nat k) (byteLength buf)) as [Hlt|Hge].
    + rewrite linesFrom_step in Hn by assumption. injection Hn as Hn.
      replace (16 * Z.of_nat k + bytesPerLine) with (16 * Z.of_nat (S k))
        by (unfold bytesPerLine; lia).
      rewrite (IH (S k) fuel) by (assumption || lia).
      cbn [seq map]. by rewrite <- app_assoc.
    + rewrite linesFrom_done in Hn by assumption. discriminate Hn.
Qed.

(** The fuel [hexdump] gives the loop is enough. *)
Lemma hexdump_calls :
  hexdump buf
  = Some (map (fun i => hexdumpCall buf (16 * Z.of_nat i)) (seq 0 (linesFrom buf 0))).
Proof.
  unfold hexdump.
  change 0 with (16 * Z.of_nat 0) at 1.
  rewrite (hexdumpLoop_calls (linesFrom buf 0)); [reflexivity|reflexivity|].
  unfold linesFrom, byteLength. Z.div_mod_to_equations. lia.
Qed.

Lemma hexdump_lookup (k : nat) :
  (k < linesFrom buf 0)%nat ->
  map (fun i => hexdumpCall buf (16 * Z.of_nat i)) (seq 0 (linesFrom buf 0)) !! k
  = Some (hexdumpCall buf (16 * Z.of_nat k)).
Proof. intros Hk. by rewrite list_lookup_fmap, lookup_seq_lt. Qed.

(** The slice the loop takes at offset [16 * k]. *)
Lemma slice_chunk (k : nat) :
  slice buf (16 * Z.of_nat k) (16 * Z.of_nat k + bytesPerLine)
  = take 16 (drop (16 * k) buf).
Proof.
  unfold slice, sliceIndex, bytesPerLine, byteLength.
  destruct (Z.ltb_spec (16 * Z.of_nat k) 0) as [?|_]; [lia|].
  destruct (Z.ltb_spec (16 * Z.of_nat k + 16) 0) as [?|_]; [lia|].
  destruct (Z_le_dec (16 * Z.of_nat k + 16) (Z.of_nat (length buf))) as [Hfull|Hpart].
  - rewrite !Z.min_l by lia. f_equal; [lia|f_equal; lia].
  - rewrite (Z.min_r (16 * Z.of_nat k + 16)) by lia.
    destruct (Z_le_dec (16 * Z.of_nat k) (Z.of_nat (length buf))) as [Hin|Hout].
    + rewrite Z.min_l by lia.
      replace (Z.to_nat (16 * Z.of_nat k)) with (16 * k)%nat by lia.
      rewrite !take_ge; [reflexivity| |]; rewrite length_drop; lia.
    + rewrite Z.min_r by lia.
      rewrite (drop_ge buf (16 * k)) by lia.
      rewrite drop_ge by lia. by rewrite !take_nil.
Qed.

Lemma chunk_length (k : nat) :
  Z.of_nat (length (take 16 (drop (16 * k) buf)))
  = Z.min 16 (byteLength buf - 16 * Z.of_nat k) `max` 0.
Proof. unfold byteLength. rewrite length_take, length_drop. lia. Qed.

Lemma chunks_concat :
  forall (n k : nat),
    n = linesFrom buf k ->
    concat (map (fun i => take 16 (drop (16 * i) buf)) (seq k n)) = drop (16 * k) buf.
Proof.
  induction n as [|n IH]; intros k Hn.
  - cbn [seq map concat]. symmetry. apply drop_ge.
    unfold linesFrom, byteLength in Hn.
    destruct (Z_le_dec (Z.of_nat (length buf)) (16 * Z.of_nat k)); [lia|].
    exfalso. revert Hn. Z.div_mod_to_equations. lia.
  - cbn [seq map concat].
    assert (Hlt : 16 * Z.of_nat k < byteLength buf).
    { destruct (Z_lt_dec (16 * Z.of_nat k) (byteLength buf)); [assumption|].
      rewrite linesFrom_done in Hn by lia. discriminate Hn. }
    rewrite linesFrom_step in Hn by assumption. injection Hn as Hn.
    rewrite (IH (S k) Hn).
    replace (16 * S k)%nat with (16 * k + 16)%nat by lia.
    rewrite <- drop_drop. apply take_drop.
Qed.
End Loop.

(** ** Strings *)

Lemma length_append (s t : string) :
  String.length (String.append s t) = (String.length s + String.length t)%nat.
Proof. induction s as [|c s IH]; cbn; [reflexivity|by rewrite IH]. Qed.

Lemma append_assoc (s t u : string) :
  String.append (String.append s t) u = String.append s (String.append t u).
Proof. induction s as [|c s IH]; cbn; [reflexivity|by rewrite IH]. Qed.

Lemma append_empty_r (s : string) : String.append s "" = s.
Proof. induction s as [|c s IH]; cbn; [reflexivity|by rewrite IH]. Qed.

Lemma length_fill n c : String.length (fill n c) = n.
Proof. induction n as [|n IH]; cbn; [reflexivity|by rewrite IH]. Qed.

Lemma allChars_append P s t :
  allChars P (String.append s t) = allChars P s && allChars P t.
Proof.
  induction s as [|c s IH]; cbn; [reflexivity|].
  by rewrite IH, andb_assoc.
Qed.

Lemma allChars_fill P n c : P c = true -> allChars P (fill n c) = true.
Proof. intros H. induction n as [|n IH]; cbn; [reflexivity|by rewrite H, IH]. Qed.

Lemma length_padStart s n c :
  Z.of_nat (String.length (padStart s n c)) = Z.max n (Z.of_nat (String.length s)).
Proof. unfold padStart. rewrite length_append, length_fill. lia. Qed.

Lemma length_padEnd s n c :
  Z.of_nat (String.length (padEnd s n c)) = Z.max n (Z.of_nat (String.length s)).
Proof. unfold padEnd. rewrite length_append, length_fill. lia. Qed.

(** ** Hexadecimal digits *)

Lemma hexValue_hexDigit d : 0 <= d < 16 -> hexValue (hexDigit d) = Some d.
Proof.
  intros H.
  assert (Hd : In d [0; 1; 2; 3; 4; 5; 6; 7; 8; 9; 10; 11; 12; 13; 14; 15])
    by (cbn [In]; lia).
  cbn [In] in Hd.
  repeat (destruct Hd as [<-|Hd]; [reflexivity|]). destruct Hd.
Qed.

Lemma parseHexFrom_hexDigits fuel :
  forall (n : Z) (rest : string),
    0 <= n < 2 ^ Z.of_nat fuel ->
    parseHexFrom 0 (hexDigits fuel n rest) = parseHexFrom n rest.
Proof.
  induction fuel as [|fuel IH]; intros n rest Hn.
  - cbn [hexDigits]. change (2 ^ Z.of_nat 0) with 1 in Hn. by replace n with 0 by lia.
  - cbn [hexDigits].
    assert (Hmod : 0 <= n mod 16 < 16) by (apply Z.mod_pos_bound; lia).
    destruct (Z.eqb_spec (n / 16) 0) as [Hq|Hq].
    + cbn [parseHexFrom]. rewrite hexValue_hexDigit by assumption.
      f_equal. Z.div_mod_to_equations. lia.
    + rewrite IH.
      * cbn [parseHexFrom]. rewrite hexValue_hexDigit by assumption.
        f_equal. Z.div_mod_to_equations. lia.
      * rewrite Nat2Z.inj_succ, Z.pow_succ_r in Hn by lia.
        Z.div_mod_to_equations. lia.
Qed.

Lemma parseHex_toString16 n : 0 <= n -> parseHex (toString16 n) = Some n.
Proof.
  intros Hn. unfold parseHex, toString16.
  destruct (Z.ltb_spec n 0) as [?|_]; [lia|].
  rewrite parseHexFrom_hexDigits; [reflexivity|].
  split; [assumption|].
  destruct (Z.eq_dec n 0) as [->|Hne]; [reflexivity|].
  rewrite Nat2Z.inj_succ, Z2Nat.id by apply Z.log2_nonneg.
  apply Z.log2_spec. lia.
Qed.

Lemma parseHexFrom_fill_zeros k s :
  parseHexFrom 0 (String.append (fill k "0") s) = parseHexFrom 0 s.
Proof. induction k as [|k IH]; [reflexivity|exact IH]. Qed.

Lemma length_hexDigits fuel :
  forall (n : Z) (k : nat) (rest : string),
    0 <= n < 16 ^ Z.of_nat k -> (1 <= k)%nat ->
    (String.length (hexDigits fuel n rest) <= k + String.length rest)%nat.
Proof.
  induction fuel as [|fuel IH]; intros n k rest Hn Hk; cbn [hexDigits]; [lia|].
  destruct (Z.eqb_spec (n / 16) 0) as [Hq|Hq]; [cbn [String.length]; lia|].
  destruct k as [|[|k]]; [lia| |].
  - change (16 ^ Z.of_nat 1) with 16 in Hn. exfalso. apply Hq.
    Z.div_mod_to_equations. lia.
  - specialize (IH (n / 16) (S k) (String (hexDigit (n mod 16)) rest)).
    cbn [String.length] in IH.
    assert ((String.length (hexDigits fuel (n / 16) (String (hexDigit (n mod 16)) rest))
             <= S k + S (String.length rest))%nat); [|lia].
    apply IH; [|lia].
    rewrite (Nat2Z.inj_succ (S k)), Z.pow_succ_r in Hn by lia.
    Z.div_mod_to_equations. lia.
Qed.

Lemma length_toString16_le n (k : nat) :
  0 <= n < 16 ^ Z.of_nat k -> (1 <= k)%nat ->
  (String.length (toString16 n) <= k)%nat.
Proof.
  intros Hn Hk. unfold toString16.
  destruct (Z.ltb_spec n 0) as [?|_]; [lia|].
  pose proof (length_hexDigits (S (Z.to_nat (Z.log2 n))) n k "" Hn Hk) as H.
  cbn [String.length] in H. lia.
Qed.

(** ** The two renderings of a byte *)

Lemma hexOfByte_digits (b : byte) :
  exists c1 c2 : ascii,
    hexOfByte b = String c1 (String c2 "")
    /\ isWhitespace c1 = false /\ isWhitespace c2 = false
    /\ parseHex (hexOfByte b) = Some (u8 b).
Proof.
  destruct b;
    (do 2 eexists; split; [vm_compute; reflexivity|repeat split; vm_compute; reflexivity]).
Qed.

Lemma parseHexByte_hexOfByte (b : byte) : parseHexByte (hexOfByte b) = Some b.
Proof.
  destruct (hexOfByte_digits b) as (c1 & c2 & _ & _ & _ & Hp).
  unfold parseHexByte. rewrite Hp.
  destruct (Z.ltb_spec (u8 b) 256) as [_|Hge]; [by rewrite to_u8_u8|].
  pose proof (u8_range b). lia.
Qed.

Lemma asciiOfByte_char (b : byte) :
  asciiOfByte b
  = String (if (32 <=? u8 b) && (u8 b <=? 126) then ascii_of_byte b else "."%char) "".
Proof. destruct b; reflexivity. Qed.

Lemma asciiOfByte_no_newline (b : byte) : noNewline (asciiOfByte b) = true.
Proof. destruct b; reflexivity. Qed.

(** ** Joined renderings *)

Lemma join_cons2 sep x y l :
  join sep (x :: y :: l) = String.append x (String.append sep (join sep (y :: l))).
Proof. reflexivity. Qed.

Lemma length_join_hex (l : Buffer) :
  l <> [] ->
  Z.of_nat (String.length (join " " (map hexOfByte l))) = 3 * Z.of_nat (length l) - 1.
Proof.
  induction l as [|b [|b' l] IH]; intros Hne; [done| |].
  - destruct (hexOfByte_digits b) as (c1 & c2 & E & _).
    cbn [map join String.concat]. rewrite E. reflexivity.
  - cbn [map]. rewrite join_cons2, !length_append.
    cbn [map] in IH. rewrite !Nat2Z.inj_add, IH by done.
    destruct (hexOfByte_digits b) as (c1 & c2 & E & _). rewrite E.
    cbn [String.length length]. lia.
Qed.

Lemma join_ascii (l : Buffer) :
  join "" (map asciiOfByte l)
  = string_of_list_ascii
      (map (fun b => if (32 <=? u8 b) && (u8 b <=? 126) then ascii_of_byte b else "."%char) l).
Proof.
  induction l as [|b [|b' l] IH]; [reflexivity| |].
  - cbn. by rewrite asciiOfByte_char.
  - cbn [map]. rewrite join_cons2. cbn [map] in IH. rewrite IH.
    rewrite asciiOfByte_char. reflexivity.
Qed.

Lemma length_string_of_list_ascii l :
  String.length (string_of_list_ascii l) = length l.
Proof. induction l as [|c l IH]; cbn; [reflexivity|by rewrite IH]. Qed.

(** ** Splitting the hex column *)

Lemma fields_nonempty s : fields s <> [].
Proof.
  destruct s as [|c s]; cbn; [done|].
  destruct (isWhitespace c); [done|]. by destruct (fields s).
Qed.

Lemma fields_fill_spaces n : List.filter nonEmpty (fields (fill n " ")) = [].
Proof. induction n as [|n IH]; [reflexivity|exact IH]. Qed.

Lemma words_hex_space (b : byte) (s : string) :
  words (String.append (hexOfByte b) (String " " s)) = hexOfByte b :: words s.
Proof.
  destruct (hexOfByte_digits b) as (c1 & c2 & E & H1 & H2 & _). rewrite E.
  unfold words. cbn [String.append fields]. rewrite H1, H2.
  change (isWhitespace " ") with true. cbn iota. reflexivity.
Qed.

Lemma words_hex_fill (b : byte) (n : nat) :
  words (String.append (hexOfByte b) (fill n " ")) = [hexOfByte b].
Proof.
  destruct (hexOfByte_digits b) as (c1 & c2 & E & H1 & H2 & _). rewrite E.
  unfold words. cbn [String.append fields]. rewrite H1, H2.
  pose proof (fields_fill_spaces n) as Hf.
  destruct (fields (fill n " ")) as [|w ws] eqn:Ef; [by apply fields_nonempty in Ef|].
  destruct w as [|c w]; [|discriminate Hf].
  cbn [List.filter nonEmpty] in *. by rewrite Hf.
Qed.

Lemma words_join_hex (l : Buffer) (n : nat) :
  words (String.append (join " " (map hexOfByte l)) (fill n " ")) = map hexOfByte l.
Proof.
  induction l as [|b [|b' l] IH].
  - apply fields_fill_spaces.
  - apply words_hex_fill.
  - cbn [map]. rewrite join_cons2, append_assoc.
    change (String.append (String.append " " ?x) ?y) with (String " " (String.append x y)).
    rewrite words_hex_space. cbn [map] in IH. by rewrite IH.
Qed.

Lemma reparse_hex_column (l : Buffer) (n : Z) :
  map parseHexByte (words (padEnd (join " " (map hexOfByte l)) n " ")) = map Some l.
Proof.
  unfold padEnd. rewrite words_join_hex, map_map.
  apply map_ext. intros b. apply parseHexByte_hexOfByte.
Qed.

(** ** No line break inside a printed line *)

Lemma noNewline_append s t : noNewline (String.append s t) = noNewline s && noNewline t.
Proof. apply allChars_append. Qed.

Lemma noNewline_join sep l :
  noNewline sep = true -> Forall (fun s => noNewline s = true) l ->
  noNewline (join sep l) = true.
Proof.
  intros Hsep Hl. induction Hl as [|x l Hx Hl IH]; [reflexivity|].
  destruct l as [|y l]; [exact Hx|].
  rewrite join_cons2, !noNewline_append, Hx, Hsep, IH. reflexivity.
Qed.

Lemma noNewline_hexDigit d : negb (isNewline (hexDigit d)) = true.
Proof.
  unfold hexDigit.
  destruct (Z.to_nat d) as [|[|[|[|[|[|[|[|[|[|[|[|[|[|[|[|n]]]]]]]]]]]]]]]]; reflexivity.
Qed.

Lemma noNewline_hexDigits fuel :
  forall n rest, noNewline rest = true -> noNewline (hexDigits fuel n rest) = true.
Proof.
  induction fuel as [|fuel IH]; intros n rest Hrest; cbn [hexDigits]; [assumption|].
  assert (H : noNewline (String (hexDigit (n mod 16)) rest) = true).
  { unfold noNewline in *. cbn [allChars]. by rewrite noNewline_hexDigit, Hrest. }
  destruct (n / 16 =? 0); [assumption|by apply IH].
Qed.

Lemma noNewline_toString16 n : noNewline (toString16 n) = true.
Proof.
  unfold toString16. destruct (n <? 0).
  - change (noNewline (hexDigits (S (Z.to_nat (Z.log2 (- n)))) (- n) "") = true).
    by apply noNewline_hexDigits.
  - by apply noNewline_hexDigits.
Qed.

Lemma noNewline_hexOfByte b : noNewline (hexOfByte b) = true.
Proof.
  unfold hexOfByte, padStart. rewrite noNewline_append, noNewline_toString16.
  unfold noNewline. by rewrite allChars_fill.
Qed.

Lemma noNewline_hexdumpCall buf offset :
  noNewline (printed (hexdumpCall buf offset)) = true.
Proof.
  unfold printed. apply noNewline_join; [reflexivity|].
  unfold hexdumpCall.
  apply List.Forall_cons; [|apply List.Forall_cons; [reflexivity|]; apply List.Forall_cons;
    [|apply List.Forall_cons; [reflexivity|]; apply List.Forall_cons; [|apply List.Forall_nil]]].
  - unfold padStart. rewrite noNewline_append, noNewline_toString16.
    unfold noNewline. by rewrite allChars_fill.
  - unfold padEnd. rewrite noNewline_append.
    apply andb_true_intro; split; [|unfold noNewline; by apply allChars_fill].
    apply noNewline_join; [reflexivity|].
    apply Forall_map, Forall_forall. intros b _. apply noNewline_hexOfByte.
  - apply noNewline_join; [reflexivity|].
    apply Forall_map, Forall_forall. intros b _. apply asciiOfByte_no_newline.
Qed.

(** ** The lines of [hexdump] *)

(** Claim C8 (line count). For every buffer, [hexdump] terminates and
    makes exactly ceil(len / 16) calls of [console.log], each printing one
    line; the call number [k] is the one for the chunk at offset [16 * k],
    the chunks are the successive slices of 16 bytes of the buffer, in
    order, the last one possibly shorter, and together they are the whole
    buffer. An empty buffer gives no line. *)
Theorem hexdump_line_count (buf : Buffer) :
  exists calls : list logCall,
    hexdump buf = Some calls
    /\ Z.of_nat (length calls) = (byteLength buf + 15) / 16
    /\ byteLength buf <= 16 * Z.of_nat (length calls) < byteLength buf + 16
    /\ (forall k : nat,
          (k < length calls)%nat ->
          calls !! k = Some (hexdumpCall buf (16 * Z.of_nat k))
          /\ noNewline (printed (hexdumpCall buf (16 * Z.of_nat k))) = true
          /\ slice buf (16 * Z.of_nat k) (16 * Z.of_nat k + bytesPerLine)
             = take 16 (drop (16 * k) buf)
          /\ (1 <= length (take 16 (drop (16 * k) buf)) <= 16)%nat
          /\ ((S k < length calls)%nat -> length (take 16 (drop (16 * k) buf)) = 16%nat))
    /\ concat (map (fun k => take 16 (drop (16 * k) buf)) (seq 0 (length calls))) = buf
    /\ (buf = [] -> calls = []).
Proof.
  eexists. split; [apply hexdump_calls|].
  rewrite length_map, length_seq.
  pose proof (linesFrom_0 buf) as Hn.
  split; [exact Hn|].
  split; [rewrite Hn; Z.div_mod_to_equations; lia|].
  split; [|split].
  - intros k Hk.
    split; [by apply hexdump_lookup|].
    split; [apply noNewline_hexdumpCall|].
    split; [apply slice_chunk|].
    pose proof (chunk_length buf k) as Hc.
    apply linesFrom_0_lt in Hk.
    split; [lia|].
    intros Hk'. apply linesFrom_0_lt in Hk'. lia.
  - rewrite (chunks_concat buf (linesFrom buf 0) 0) by reflexivity. reflexivity.
  - intros ->. reflexivity.
Qed.

Lemma hexdump_line_count_witness :
  exists calls : list logCall,
    hexdump twentyBytes = Some calls
    /\ Z.of_nat (length calls) = 2
    /\ calls !! 1%nat = Some (hexdumpCall twentyBytes (16 * Z.of_nat 1))
    /\ noNewline (printed (hexdumpCall twentyBytes (16 * Z.of_nat 1))) = true
    /\ slice twentyBytes (16 * Z.of_nat 1) (16 * Z.of_nat 1 + bytesPerLine)
       = take 16 (drop (16 * 1) twentyBytes)
    /\ (1 <= length (take 16 (drop (16 * 1) twentyBytes)) <= 16)%nat
    /\ ((2 < length calls)%nat -> length (take 16 (drop (16 * 1) twentyBytes)) = 16%nat).
Proof.
  destruct (hexdump_line_count twentyBytes) as (calls & Hd & Hn & _ & Hk & _).
  change ((byteLength twentyBytes + 15) / 16) with 2 in Hn.
  exists calls. split; [exact Hd|]. split; [exact Hn|].
  apply (Hk 1%nat). lia.
Defined.

Example hexdump_twentyBytes :
  option_map (map printed) (hexdump twentyBytes)
  = Some ["0000    41 42 43 44 45 46 47 48 49 4a 4b 4c 4d 4e 4f 50    ABCDEFGHIJKLMNOP";
          "0010    51 52 53 54                                        QRST"].
Proof. reflexivity. Qed.

(** Claim C9, amended. For every buffer and every line [k] of its hexdump:
    the offset column is [16 * k] in lowercase hexadecimal, padded with
    zeros to at least 4 digits: exactly 4 digits when the offset is below
    65536, all the digits of the offset otherwise; the hex column holds
    two lowercase hexadecimal digits per byte of the chunk, separated by
    single spaces, and is padded with spaces to 16 * 3 = 48 characters; the
    ASCII column holds, for each byte [b], the character of code [b] when
    32 <= b <= 126 and a dot otherwise; and the hex column, split on
    whitespace and read back as hexadecimal bytes, is the chunk. *)
Theorem hexdump_line_format (buf : Buffer) (k : nat) :
  16 * Z.of_nat k < byteLength buf ->
  exists (calls : list logCall) (off hexcol asc : string),
    hexdump buf = Some calls
    /\ calls !! k = Some [off; "  "; hexcol; " "; asc]
    /\ off = padStart (toString16 (16 * Z.of_nat k)) 4 "0"
    /\ parseHex off = Some (16 * Z.of_nat k)
    /\ (4 <= String.length off)%nat
    /\ (16 * Z.of_nat k < 65536 -> String.length off = 4%nat)
    /\ hexcol = padEnd (join " " (map hexOfByte (take 16 (drop (16 * k) buf)))) (16 * 3) " "
    /\ Forall (fun b => exists c1 c2 : ascii,
                  hexOfByte b = String c1 (String c2 "")
                  /\ parseHex (hexOfByte b) = Some (u8 b))
              (take 16 (drop (16 * k) buf))
    /\ String.length hexcol = 48%nat
    /\ asc = string_of_list_ascii
               (map (fun b => if (32 <=? u8 b) && (u8 b <=? 126)
                              then ascii_of_byte b else "."%char)
                    (take 16 (drop (16 * k) buf)))
    /\ String.length asc = length (take 16 (drop (16 * k) buf))
    /\ map parseHexByte (words hexcol) = map Some (take 16 (drop (16 * k) buf)).
Proof.
  intros Hk.
  pose proof (chunk_length buf k) as Hlen.
  set (chunk := take 16 (drop (16 * k) buf)) in *.
  assert (Hne : chunk <> []) by (intros E; rewrite E in Hlen; cbn [length] in Hlen; lia).
  exists (map (fun i => hexdumpCall buf (16 * Z.of_nat i)) (seq 0 (linesFrom buf 0))).
  exists (padStart (toString16 (16 * Z.of_nat k)) 4 "0").
  exists (padEnd (join " " (map hexOfByte chunk)) (16 * 3) " ").
  exists (join "" (map asciiOfByte chunk)).
  split; [apply hexdump_calls|].
  split.
  { rewrite hexdump_lookup by (by apply linesFrom_0_lt).
    unfold hexdumpCall. rewrite slice_chunk. reflexivity. }
  split; [reflexivity|].
  split.
  { unfold parseHex, padStart. rewrite parseHexFrom_fill_zeros.
    apply parseHex_toString16. lia. }
  pose proof (length_padStart (toString16 (16 * Z.of_nat k)) 4 "0") as Hoff.
  split; [lia|].
  split.
  { intros Hsmall.
    pose proof (length_toString16_le (16 * Z.of_nat k) 4) as Hle.
    change (16 ^ Z.of_nat 4) with 65536 in Hle. lia. }
  split; [reflexivity|].
  split.
  { apply Forall_forall. intros b _.
    destruct (hexOfByte_digits b) as (c1 & c2 & E & _ & _ & Hp). eauto. }
  split.
  { pose proof (length_padEnd (join " " (map hexOfByte chunk)) (16 * 3) " ") as Hpad.
    rewrite length_join_hex in Hpad by assumption. lia. }
  split; [apply join_ascii|].
  split; [by rewrite join_ascii, length_string_of_list_ascii, length_map|].
  apply reparse_hex_column.
Qed.

(** Claim C9 as stated fails: in the hexdump of a buffer of 65537 bytes, the
    line at offset 65536 has the five-digit offset 10000. *)
Lemma hexdump_offset_five_digits :
  exists (calls : list logCall) (call : logCall),
    hexdump largeBuffer = Some calls
    /\ calls !! 4096%nat = Some call
    /\ call !! 0%nat = Some "10000"
    /\ String.length "10000" <> 4%nat.
Proof.
  assert (Hlen : byteLength largeBuffer = 65537).
  { unfold byteLength, largeBuffer. rewrite length_replicate. lia. }
  do 2 eexists. split; [apply hexdump_calls|].
  split; [apply hexdump_lookup; apply linesFrom_0_lt; rewrite Hlen; lia|].
  split; [|discriminate].
  unfold hexdumpCall. cbn [lookup list_lookup]. f_equal.
Qed.

Lemma hexdump_line_format_witness :
  exists (calls : list logCall) (off hexcol asc : string),
    hexdump twentyBytes = Some calls
    /\ calls !! 1%nat = Some [off; "  "; hexcol; " "; asc]
    /\ off = padStart (toString16 (16 * Z.of_nat 1)) 4 "0"
    /\ parseHex off = Some (16 * Z.of_nat 1)
    /\ (4 <= String.length off)%nat
    /\ (16 * Z.of_nat 1 < 65536 -> String.length off = 4%nat)
    /\ hexcol = padEnd (join " " (map hexOfByte (take 16 (drop (16 * 1) twentyBytes))))
                       (16 * 3) " "
    /\ Forall (fun b => exists c1 c2 : ascii,
                  hexOfByte b = String c1 (String c2 "")
                  /\ parseHex (hexOfByte b) = Some (u8 b))
              (take 16 (drop (16 * 1) twentyBytes))
    /\ String.length hexcol = 48%nat
    /\ asc = string_of_list_ascii
               (map (fun b => if (32 <=? u8 b) && (u8 b <=? 126)
                              then ascii_of_byte b else "."%char)
                    (take 16 (drop (16 * 1) twentyBytes)))
    /\ String.length asc = length (take 16 (drop (16 * 1) twentyBytes))
    /\ map parseHexByte (words hexcol) = map Some (take 16 (drop (16 * 1) twentyBytes)).
Proof.
  apply (hexdump_line_format twentyBytes 1).
  reflexivity.
Defined.

(** * Further properties *)

(** ** Bit operations as arithmetic *)

Lemma land_shifted_low a x n :
  0 <= n -> 0 <= x < 2 ^ n -> Z.land (a * 2 ^ n) x = 0.
Proof.
  intros Hn Hx. apply Z.bits_inj'. intros i Hi.
  rewrite Z.land_spec, Z.bits_0.
  destruct (Z_lt_dec i n) as [Hlt|Hge].
  - rewrite Z.mul_pow2_bits_low by lia. reflexivity.
  - rewrite <- (Z.mod_small x (2 ^ n)) by lia.
    rewrite Z.mod_pow2_bits_high by lia. apply andb_false_r.
Qed.

Lemma lor_shifted_low a x n :
  0 <= n -> 0 <= x < 2 ^ n -> Z.lor (a * 2 ^ n) x = a * 2 ^ n + x.
Proof.
  intros Hn Hx. pose proof (Z.add_lor_land (a * 2 ^ n) x) as H.
  rewrite land_shifted_low in H by assumption. lia.
Qed.

Lemma land_mask x n : 0 <= n -> Z.land x (2 ^ n - 1) = x mod 2 ^ n.
Proof.
  intros Hn. rewrite <- Z.land_ones by assumption.
  f_equal. rewrite Z.ones_equiv. lia.
Qed.

Lemma continuation_byte x :
  u8 (to_u8 (Z.lor 0x80 (Z.land x 0x3F))) = 0x80 + x mod 64.
Proof.
  change 0x3F with (2 ^ 6 - 1). rewrite land_mask by lia.
  change 0x80 with (2 * 2 ^ 6) at 1.
  rewrite lor_shifted_low by (try apply Z.mod_pos_bound; lia).
  rewrite u8_to_u8. change (2 ^ 6) with 64.
  apply Z.mod_small. pose proof (Z.mod_pos_bound x 64). lia.
Qed.

Lemma lead_byte (tag x n : Z) :
  0 <= n -> 0 <= x < 2 ^ n -> 0 <= tag -> tag * 2 ^ n + 2 ^ n <= 256 ->
  u8 (to_u8 (Z.lor (tag * 2 ^ n) x)) = tag * 2 ^ n + x.
Proof.
  intros Hn Hx Ht Hb. rewrite lor_shifted_low by assumption.
  rewrite u8_to_u8. apply Z.mod_small. nia.
Qed.

Lemma lead_byte_two x : 0 <= x < 32 -> u8 (to_u8 (Z.lor 0xC0 x)) = 0xC0 + x.
Proof. intros H. apply (lead_byte 6 x 5); lia. Qed.

Lemma lead_byte_three x : 0 <= x < 16 -> u8 (to_u8 (Z.lor 0xE0 x)) = 0xE0 + x.
Proof. intros H. apply (lead_byte 14 x 4); lia. Qed.

Lemma lead_byte_four x : 0 <= x < 8 -> u8 (to_u8 (Z.lor 0xF0 x)) = 0xF0 + x.
Proof. intros H. apply (lead_byte 30 x 3); lia. Qed.

Lemma accumulate cp b :
  0x80 <= b <= 0xBF ->
  Z.lor (Z.shiftl cp 6) (Z.land b 0x3F) = cp * 64 + (b - 0x80).
Proof.
  intros Hb. rewrite Z.shiftl_mul_pow2 by lia.
  change 0x3F with (2 ^ 6 - 1). rewrite land_mask by lia.
  rewrite lor_shifted_low by (try apply Z.mod_pos_bound; lia).
  change (2 ^ 6) with 64. Z.div_mod_to_equations. lia.
Qed.

(** ** The decoder on the bytes of one code point *)

Lemma utf8Lead_one b : 0 <= b <= 0x7F -> utf8Lead b = ([b], None).
Proof.
  intros H. unfold utf8Lead.
  destruct (Z.leb_spec b 0x7F); [reflexivity|lia].
Qed.

Lemma utf8Lead_two b :
  0xC2 <= b <= 0xDF ->
  utf8Lead b = ([], Some (Pending (Z.land b 0x1F) 1 0x80 0xBF)).
Proof.
  intros H. unfold utf8Lead.
  destruct (Z.leb_spec b 0x7F); [lia|].
  destruct (Z.leb_spec 0xC2 b); [|lia].
  destruct (Z.leb_spec b 0xDF); [reflexivity|lia].
Qed.

Lemma utf8Lead_three b :
  0xE0 <= b <= 0xEF ->
  utf8Lead b
  = ([], Some (Pending (Z.land b 0xF) 2
                 (if b =? 0xE0 then 0xA0 else 0x80)
                 (if b =? 0xED then 0x9F else 0xBF))).
Proof.
  intros H. unfold utf8Lead.
  destruct (Z.leb_spec b 0x7F); [lia|].
  destruct (Z.leb_spec 0xC2 b); [|lia].
  destruct (Z.leb_spec b 0xDF); [lia|]. cbn [andb].
  destruct (Z.leb_spec 0xE0 b); [|lia].
  destruct (Z.leb_spec b 0xEF); [reflexivity|lia].
Qed.

Lemma utf8Lead_four b :
  0xF0 <= b <= 0xF4 ->
  utf8Lead b
  = ([], Some (Pending (Z.land b 0x7) 3
                 (if b =? 0xF0 then 0x90 else 0x80)
                 (if b =? 0xF4 then 0x8F else 0xBF))).
Proof.
  intros H. unfold utf8Lead.
  destruct (Z.leb_spec b 0x7F); [lia|].
  destruct (Z.leb_spec 0xC2 b); [|lia].
  destruct (Z.leb_spec b 0xDF); [lia|]. cbn [andb].
  destruct (Z.leb_spec 0xE0 b); [|lia].
  destruct (Z.leb_spec b 0xEF); [lia|]. cbn [andb].
  destruct (Z.leb_spec 0xF0 b); [|lia].
  destruct (Z.leb_spec b 0xF4); [reflexivity|lia].
Qed.

Lemma utf8Step_continue cp needed lower upper b :
  lower <= b <= upper ->
  utf8Step (Some (Pending cp needed lower upper)) b
  = match needed with
    | S (S n) => ([], Some (Pending (Z.lor (Z.shiftl cp 6) (Z.land b 0x3F)) (S n) 0x80 0xBF))
    | _ => ([Z.lor (Z.shiftl cp 6) (Z.land b 0x3F)], None)
    end.
Proof.
  intros H. unfold utf8Step.
  destruct (Z.leb_spec lower b); [|lia].
  destruct (Z.leb_spec b upper); [reflexivity|lia].
Qed.

Lemma utf8Decode_cons st b rest :
  utf8Decode st (b :: rest)
  = fst (utf8Step st (u8 b)) ++ utf8Decode (snd (utf8Step st (u8 b))) rest.
Proof. cbn [utf8Decode]. by destruct (utf8Step st (u8 b)). Qed.

Lemma utf8Decode_encoded cp rest :
  isScalar cp ->
  utf8Decode None (utf8EncodeCodePoint cp ++ rest) = cp :: utf8Decode None rest.
Proof.
  intros [Hcp Hsur]. unfold utf8EncodeCodePoint.
  destruct (Z.ltb_spec cp 0x80) as [H1|H1];
    [|destruct (Z.ltb_spec cp 0x800) as [H2|H2];
      [|destruct (Z.ltb_spec cp 0x10000) as [H3|H3]]];
    cbn [app]; rewrite !utf8Decode_cons.
  - rewrite u8_to_u8, Z.mod_small by lia.
    cbn [utf8Step]. rewrite utf8Lead_one by lia. reflexivity.
  - rewrite Z.shiftr_div_pow2 by lia. change (2 ^ 6) with 64.
    assert (Hq : 2 <= cp / 64 < 32) by (Z.div_mod_to_equations; lia).
    rewrite lead_byte_two by lia.
    rewrite continuation_byte.
    cbn [utf8Step]. rewrite utf8Lead_two by lia.
    cbn [fst snd app].
    pose proof (Z.mod_pos_bound cp 64).
    rewrite utf8Step_continue by lia. cbn [fst snd app].
    rewrite accumulate by lia.
    change 0x1F with (2 ^ 5 - 1). rewrite land_mask by lia.
    change (2 ^ 5) with 32.
    f_equal. Z.div_mod_to_equations. lia.
  - rewrite !Z.shiftr_div_pow2 by lia. change (2 ^ 6) with 64. change (2 ^ 12) with 4096.
    assert (Hq : 0 <= cp / 4096 < 16) by (Z.div_mod_to_equations; lia).
    rewrite lead_byte_three by lia.
    rewrite !continuation_byte.
    cbn [utf8Step]. rewrite utf8Lead_three by lia.
    cbn [fst snd app].
    pose proof (Z.mod_pos_bound cp 64). pose proof (Z.mod_pos_bound (cp / 64) 64).
    rewrite utf8Step_continue.
    2:{ destruct (Z.eqb_spec (224 + cp / 4096) 224);
        destruct (Z.eqb_spec (224 + cp / 4096) 237); Z.div_mod_to_equations; lia. }
    cbn [fst snd app].
    rewrite utf8Step_continue by lia. cbn [fst snd app].
    rewrite !accumulate by lia.
    change 0xF with (2 ^ 4 - 1). rewrite land_mask by lia. change (2 ^ 4) with 16.
    f_equal. Z.div_mod_to_equations. lia.
  - rewrite !Z.shiftr_div_pow2 by lia.
    change (2 ^ 6) with 64. change (2 ^ 12) with 4096. change (2 ^ 18) with 262144.
    assert (Hq : 0 <= cp / 262144 < 5) by (Z.div_mod_to_equations; lia).
    rewrite lead_byte_four by lia.
    rewrite !continuation_byte.
    cbn [utf8Step]. rewrite utf8Lead_four by lia.
    cbn [fst snd app].
    pose proof (Z.mod_pos_bound cp 64). pose proof (Z.mod_pos_bound (cp / 64) 64).
    pose proof (Z.mod_pos_bound (cp / 4096) 64).
    rewrite utf8Step_continue.
    2:{ destruct (Z.eqb_spec (240 + cp / 262144) 240);
        destruct (Z.eqb_spec (240 + cp / 262144) 244); Z.div_mod_to_equations; lia. }
    cbn [fst snd app].
    rewrite utf8Step_continue by lia. cbn [fst snd app].
    rewrite utf8Step_continue by lia. cbn [fst snd app].
    rewrite !accumulate by lia.
    change 0x7 with (2 ^ 3 - 1). rewrite land_mask by lia. change (2 ^ 3) with 8.
    f_equal. Z.div_mod_to_equations. lia.
Qed.

Lemma surrogate_cases c :
  (isHighSurrogate c = true /\ 0xD800 <= c <= 0xDBFF)
  \/ (isHighSurrogate c = false /\ isLowSurrogate c = true /\ 0xDC00 <= c <= 0xDFFF)
  \/ (isHighSurrogate c = false /\ isLowSurrogate c = false
      /\ ~ (0xD800 <= c <= 0xDFFF)).
Proof.
  unfold isHighSurrogate, isLowSurrogate.
  destruct (Z.leb_spec 0xD800 c), (Z.leb_spec c 0xDBFF),
    (Z.leb_spec 0xDC00 c), (Z.leb_spec c 0xDFFF); cbn [andb]; lia.
Qed.

Lemma utf8Decode_replacement rest :
  utf8Decode None (replacementBytes ++ rest) = 0xFFFD :: utf8Decode None rest.
Proof.
  change replacementBytes with (utf8EncodeCodePoint 0xFFFD).
  apply utf8Decode_encoded. unfold isScalar. lia.
Qed.

Lemma codeUnits_pair c d :
  0xD800 <= c <= 0xDBFF -> 0xDC00 <= d <= 0xDFFF ->
  codeUnits (0x10000 + (c - 0xD800) * 0x400 + (d - 0xDC00)) = [c; d].
Proof.
  intros Hc Hd. unfold codeUnits.
  destruct (Z.ltb_spec (0x10000 + (c - 0xD800) * 0x400 + (d - 0xDC00)) 0x10000); [lia|].
  rewrite Z.shiftr_div_pow2 by lia.
  change 0x3FF with (2 ^ 10 - 1). rewrite land_mask by lia. change (2 ^ 10) with 1024.
  f_equal; [|f_equal]; Z.div_mod_to_equations; lia.
Qed.

Lemma codeUnits_bmp c : c < 0x10000 -> codeUnits c = [c].
Proof. intros H. unfold codeUnits. destruct (Z.ltb_spec c 0x10000); [reflexivity|lia]. Qed.

(** Decoding what [Buffer.from(s, "utf8")] wrote gives [s.toWellFormed()]. *)
Lemma utf8Decode_utf8Write (n : nat) :
  forall s : jsString,
    (length s <= n)%nat -> codeUnitsInRange s ->
    flat_map codeUnits (utf8Decode None (utf8Write s)) = toWellFormed s.
Proof.
  induction n as [|n IH]; intros s Hlen Hs.
  - destruct s; [reflexivity|cbn [length] in Hlen; lia].
  - destruct s as [|c rest]; [reflexivity|].
    apply Forall_cons in Hs as [Hc Hrest]. cbn [length] in Hlen.
    cbn [utf8Write toWellFormed].
    destruct (surrogate_cases c) as [(-> & Hhi)|[(-> & -> & Hlo)|(-> & -> & Hno)]].
    + destruct rest as [|d rest']; [reflexivity|].
      apply Forall_cons in Hrest as [Hd Hrest']. cbn [length] in Hlen.
      destruct (surrogate_cases d) as [(Hdh & Hdhi)|[(_ & Hdl & Hdlo)|(_ & Hdl & Hdno)]].
      * replace (isLowSurrogate d) with false
          by (unfold isLowSurrogate; destruct (Z.leb_spec 0xDC00 d); [lia|reflexivity]).
        rewrite utf8Decode_replacement. cbn [flat_map].
        rewrite IH by first [cbn [length]; lia | constructor; assumption].
        reflexivity.
      * rewrite Hdl.
        rewrite utf8Decode_encoded by (unfold isScalar; lia).
        cbn [flat_map]. rewrite codeUnits_pair by assumption.
        rewrite IH by (assumption || lia). reflexivity.
      * rewrite Hdl. rewrite utf8Decode_replacement. cbn [flat_map].
        rewrite IH by first [cbn [length]; lia | constructor; assumption].
        reflexivity.
    + rewrite utf8Decode_replacement. cbn [flat_map].
      rewrite IH by (assumption || lia). reflexivity.
    + rewrite utf8Decode_encoded by (unfold isScalar; lia).
      cbn [flat_map]. rewrite codeUnits_bmp by lia.
      rewrite IH by (assumption || lia). reflexivity.
Qed.

Lemma toWellFormed_wellFormed (n : nat) :
  forall s : jsString, (length s <= n)%nat -> wellFormed s = true -> toWellFormed s = s.
Proof.
  induction n as [|n IH]; intros s Hlen Hs.
  - destruct s; [reflexivity|cbn [length] in Hlen; lia].
  - destruct s as [|c rest]; [reflexivity|]. cbn [length] in Hlen.
    cbn [wellFormed toWellFormed] in *.
    destruct (isHighSurrogate c).
    + destruct rest as [|d rest']; [discriminate|]. cbn [length] in Hlen.
      apply andb_true_iff in Hs as [-> Hs]. rewrite IH by (assumption || lia). reflexivity.
    + destruct (isLowSurrogate c); [discriminate|].
      apply andb_true_iff in Hs as [_ Hs]. rewrite IH by (assumption || lia). reflexivity.
Qed.

Lemma wellFormed_in_range (n : nat) :
  forall s : jsString, (length s <= n)%nat -> wellFormed s = true -> codeUnitsInRange s.
Proof.
  induction n as [|n IH]; intros s Hlen Hs.
  - destruct s; [constructor|cbn [length] in Hlen; lia].
  - destruct s as [|c rest]; [constructor|]. cbn [length] in Hlen.
    cbn [wellFormed] in Hs.
    destruct (surrogate_cases c) as [(E & Hhi)|[(E & E' & Hlo)|(E & E' & Hno)]];
      rewrite E in Hs; try rewrite E' in Hs; try discriminate.
    + destruct rest as [|d rest']; [discriminate|]. cbn [length] in Hlen.
      apply andb_true_iff in Hs as [Hd Hs].
      unfold isLowSurrogate in Hd. apply andb_true_iff in Hd as [Hd1 Hd2].
      apply Z.leb_le in Hd1, Hd2.
      constructor; [lia|]. constructor; [lia|]. apply IH; [lia|assumption].
    + apply andb_true_iff in Hs as [Hc Hs]. apply andb_true_iff in Hc as [Hc1 Hc2].
      apply Z.leb_le in Hc1. apply Z.ltb_lt in Hc2.
      constructor; [lia|]. apply IH; [lia|assumption].
Qed.

(** ** Messages carrying text *)

Lemma buildMessage_outcome messageId flags payload :
  buildMessage messageId flags payload
  = if (messageId <? 0) || (2 ^ 32 <=? messageId)
    then Throw (ERR_OUT_OF_RANGE "value" 0 (2 ^ 32 - 1) messageId)
    else if 65535 <? byteLength (Buffer_from payload)
    then Throw (ERR_OUT_OF_RANGE "value" 0 (2 ^ 16 - 1) (byteLength (Buffer_from payload)))
    else if (flags <? 0) || (2 ^ 16 <=? flags)
    then Throw (ERR_OUT_OF_RANGE "value" 0 (2 ^ 16 - 1) flags)
    else Normal (header messageId (byteLength (Buffer_from payload)) flags
                   ++ Buffer_from payload).
Proof.
  destruct (Z.ltb_spec messageId 0); cbn [orb];
    [apply buildMessage_messageId_out_of_range; lia|].
  destruct (Z.leb_spec (2 ^ 32) messageId);
    [apply buildMessage_messageId_out_of_range; lia|].
  destruct (Z.ltb_spec 65535 (byteLength (Buffer_from payload)));
    [apply buildMessage_length_out_of_range; lia|].
  destruct (Z.ltb_spec flags 0); cbn [orb];
    [apply buildMessage_flags_out_of_range; lia|].
  destruct (Z.leb_spec (2 ^ 16) flags);
    [apply buildMessage_flags_out_of_range; lia|].
  apply buildMessage_in_range; lia.
Qed.

Lemma buildMessage_Normal_inv messageId flags payload wire :
  buildMessage messageId flags payload = Normal wire ->
  0 <= messageId < 2 ^ 32 /\ 0 <= flags < 2 ^ 16
  /\ byteLength (Buffer_from payload) <= 65535
  /\ wire = header messageId (byteLength (Buffer_from payload)) flags ++ Buffer_from payload.
Proof.
  rewrite buildMessage_outcome.
  destruct (Z.ltb_spec messageId 0); cbn [orb]; [discriminate|].
  destruct (Z.leb_spec (2 ^ 32) messageId); [discriminate|].
  destruct (Z.ltb_spec 65535 (byteLength (Buffer_from payload))); [discriminate|].
  destruct (Z.ltb_spec flags 0); cbn [orb]; [discriminate|].
  destruct (Z.leb_spec (2 ^ 16) flags); [discriminate|].
  intros [= <-]. repeat split; lia.
Qed.

(** X1 (the payload text can be read back). For integers [messageId] in
    [0, 2^32) and [flags] in [0, 2^16) and a string [s] of at most 65535
    UTF-8 bytes, the buffer [buildMessage(messageId, flags, s)] returns
    holds the number of UTF-8 bytes of [s] in its length field, and
    decoding it from offset 8 with [toString("utf8", 8)] gives
    [s.toWellFormed()]: [s] itself when its surrogates are paired, and
    otherwise [s] with U+FFFD in place of every lone surrogate. *)
Theorem buildMessage_text_decodes (messageId flags : Z) (s : jsString) :
  0 <= messageId < 2 ^ 32 ->
  0 <= flags < 2 ^ 16 ->
  codeUnitsInRange s ->
  byteLength (utf8Write s) <= 65535 ->
  exists wire : Buffer,
    buildMessage messageId flags (PString s) = Normal wire
    /\ readUint16BE wire 4 = Normal (byteLength (utf8Write s))
    /\ toString_utf8 wire 8 = toWellFormed s
    /\ (wellFormed s = true -> toString_utf8 wire 8 = s).
Proof.
  intros Hid Hfl Hs Hlen.
  eexists. split; [apply buildMessage_in_range; assumption|].
  cbn [Buffer_from].
  destruct (header_reads messageId (byteLength (utf8Write s)) flags (utf8Write s))
    as (_ & R2 & _); [assumption|unfold byteLength in *; pow2; lia|assumption|].
  split; [exact R2|].
  assert (Hdec : toString_utf8
                   (header messageId (byteLength (utf8Write s)) flags ++ utf8Write s) 8
                 = toWellFormed s).
  { unfold toString_utf8.
    change (drop (Z.to_nat 8) (header ?a ?b ?c ++ ?r)) with r.
    apply (utf8Decode_utf8Write (length s)); [lia|assumption]. }
  split; [exact Hdec|].
  intros Hwf. rewrite Hdec. apply (toWellFormed_wellFormed (length s)); [lia|assumption].
Qed.

Lemma buildMessage_text_decodes_witness :
  exists wire : Buffer,
    buildMessage 5000 3 (PString [0x48; 0xE9; 0x20AC; 0xD83D; 0xDE00]) = Normal wire
    /\ readUint16BE wire 4 = Normal (byteLength (utf8Write [0x48; 0xE9; 0x20AC; 0xD83D; 0xDE00]))
    /\ toString_utf8 wire 8 = toWellFormed [0x48; 0xE9; 0x20AC; 0xD83D; 0xDE00]
    /\ toString_utf8 wire 8 = [0x48; 0xE9; 0x20AC; 0xD83D; 0xDE00].
Proof.
  destruct (buildMessage_text_decodes 5000 3 [0x48; 0xE9; 0x20AC; 0xD83D; 0xDE00])
    as (wire & Hb & Hl & Hd & Hw).
  - pow2. lia.
  - pow2. lia.
  - unfold codeUnitsInRange. repeat (apply List.Forall_cons; [lia|]). apply List.Forall_nil.
  - vm_compute. discriminate.
  - exists wire. split; [exact Hb|]. split; [exact Hl|]. split; [exact Hd|].
    apply Hw. reflexivity.
Defined.

(** X2 (the encoding is unambiguous on integers). Two calls of
    [buildMessage] with integer [messageId] and [flags] that return the
    same bytes had the same [messageId], the same [flags] and the same
    payload bytes; two well-formed strings with the same message bytes are
    equal. (A number that is not an integer is outside this statement: the
    writes of Node truncate it.) *)
Theorem buildMessage_injective
    (messageId flags messageId' flags' : Z) (payload payload' : Payload) (wire : Buffer) :
  buildMessage messageId flags payload = Normal wire ->
  buildMessage messageId' flags' payload' = Normal wire ->
  messageId = messageId' /\ flags = flags'
  /\ Buffer_from payload = Buffer_from payload'
  /\ (forall s s' : jsString,
        payload = PString s -> payload' = PString s' ->
        wellFormed s = true -> wellFormed s' = true -> s = s').
Proof.
  intros H H'.
  apply buildMessage_Normal_inv in H as (Hid & Hfl & Hlen & Hw).
  apply buildMessage_Normal_inv in H' as (Hid' & Hfl' & Hlen' & Hw').
  assert (Hl : 0 <= byteLength (Buffer_from payload) < 2 ^ 16)
    by (unfold byteLength in *; pow2; lia).
  assert (Hl' : 0 <= byteLength (Buffer_from payload') < 2 ^ 16)
    by (unfold byteLength in *; pow2; lia).
  destruct (header_reads messageId _ flags (Buffer_from payload) Hid Hl Hfl)
    as (R1 & _ & R3).
  destruct (header_reads messageId' _ flags' (Buffer_from payload') Hid' Hl' Hfl')
    as (R1' & _ & R3').
  rewrite <- Hw in R1, R3. rewrite <- Hw' in R1', R3'.
  assert (Hp : Buffer_from payload = Buffer_from payload').
  { change (Buffer_from payload)
      with (drop 8 (header messageId (byteLength (Buffer_from payload)) flags
                      ++ Buffer_from payload)).
    rewrite <- Hw, Hw'. reflexivity. }
  split; [congruence|]. split; [congruence|]. split; [exact Hp|].
  intros s s' -> -> Hs Hs'. cbn [Buffer_from] in Hp.
  rewrite <- (toWellFormed_wellFormed (length s) s) by (lia || assumption).
  rewrite <- (toWellFormed_wellFormed (length s') s') by (lia || assumption).
  rewrite <- (utf8Decode_utf8Write (length s) s)
    by (lia || (apply (wellFormed_in_range (length s)); (lia || assumption))).
  rewrite <- (utf8Decode_utf8Write (length s') s')
    by (lia || (apply (wellFormed_in_range (length s')); (lia || assumption))).
  by rewrite Hp.
Qed.

Lemma buildMessage_injective_witness :
  5000 = 5000 /\ 3 = 3
  /\ Buffer_from (PString (lit "Test")) = Buffer_from (PBuffer [x54; x65; x73; x74])
  /\ (forall s s' : jsString,
        PString (lit "Test") = PString s -> PBuffer [x54; x65; x73; x74] = PString s' ->
        wellFormed s = true -> wellFormed s' = true -> s = s').
Proof.
  apply (buildMessage_injective 5000 3 5000 3
           (PString (lit "Test")) (PBuffer [x54; x65; x73; x74])
           [x00; x00; x13; x88; x00; x04; x03; x00; x54; x65; x73; x74]);
    reflexivity.
Defined.

(** ** How many bytes a string takes *)

Lemma length_utf8EncodeCodePoint c :
  length (utf8EncodeCodePoint c)
  = if c <? 0x80 then 1%nat else if c <? 0x800 then 2%nat
    else if c <? 0x10000 then 3%nat else 4%nat.
Proof.
  unfold utf8EncodeCodePoint.
  destruct (c <? 0x80); [reflexivity|].
  destruct (c <? 0x800); [reflexivity|].
  destruct (c <? 0x10000); reflexivity.
Qed.

Lemma length_utf8Write_bounds (n : nat) :
  forall s : jsString,
    (length s <= n)%nat -> codeUnitsInRange s ->
    (length s <= length (utf8Write s) <= 3 * length s)%nat.
Proof.
  induction n as [|n IH]; intros s Hlen Hs.
  - destruct s; [cbn; lia|cbn [length] in Hlen; lia].
  - destruct s as [|c rest]; [cbn; lia|].
    apply Forall_cons in Hs as [Hc Hrest]. cbn [length] in Hlen.
    cbn [utf8Write].
    destruct (surrogate_cases c) as [(-> & Hhi)|[(-> & -> & Hlo)|(-> & -> & Hno)]].
    + destruct rest as [|d rest']; [cbn; lia|].
      pose proof Hrest as Hrest0.
      apply Forall_cons in Hrest as [Hd Hrest']. cbn [length] in Hlen.
      destruct (isLowSurrogate d) eqn:Hdl.
      * rewrite length_app, length_utf8EncodeCodePoint.
        specialize (IH rest' ltac:(lia) Hrest'). cbn [length].
        unfold isLowSurrogate in Hdl. apply andb_true_iff in Hdl as [Hd1 Hd2].
        apply Z.leb_le in Hd1, Hd2.
        destruct (Z.ltb_spec (65536 + (c - 55296) * 1024 + (d - 56320)) 0x80); [lia|].
        destruct (Z.ltb_spec (65536 + (c - 55296) * 1024 + (d - 56320)) 0x800); [lia|].
        destruct (Z.ltb_spec (65536 + (c - 55296) * 1024 + (d - 56320)) 0x10000); lia.
      * rewrite length_app.
        specialize (IH (d :: rest') ltac:(cbn [length]; lia) Hrest0).
        cbn [length replacementBytes] in *. lia.
    + rewrite length_app. specialize (IH rest ltac:(lia) Hrest).
      cbn [length replacementBytes]. lia.
    + rewrite length_app, length_utf8EncodeCodePoint.
      specialize (IH rest ltac:(lia) Hrest). cbn [length].
      destruct (Z.ltb_spec c 0x80); [lia|].
      destruct (Z.ltb_spec c 0x800); [lia|].
      destruct (Z.ltb_spec c 0x10000); lia.
Qed.

(** X3 (how long a string fits). A string takes at least one and at most
    three bytes per UTF-16 code unit, so with [messageId] and [flags] in
    range [buildMessage] accepts every string of at most 21845 code units
    and throws the range error of the length field for every string of
    more than 65535 code units. *)
Theorem buildMessage_string_capacity (messageId flags : Z) (s : jsString) :
  0 <= messageId < 2 ^ 32 ->
  0 <= flags < 2 ^ 16 ->
  codeUnitsInRange s ->
  Z.of_nat (length s) <= byteLength (utf8Write s) <= 3 * Z.of_nat (length s)
  /\ (Z.of_nat (length s) <= 21845 ->
      exists wire : Buffer,
        buildMessage messageId flags (PString s) = Normal wire
        /\ byteLength wire = 8 + byteLength (utf8Write s))
  /\ (65535 < Z.of_nat (length s) ->
      buildMessage messageId flags (PString s)
      = Throw (ERR_OUT_OF_RANGE "value" 0 65535 (byteLength (utf8Write s)))).
Proof.
  intros Hid Hfl Hs.
  pose proof (length_utf8Write_bounds (length s) s ltac:(lia) Hs) as Hb.
  unfold byteLength at 1 2.
  split; [lia|]. split.
  - intros Hsmall. eexists.
    split; [apply buildMessage_in_range; (assumption || (cbn [Buffer_from]; unfold byteLength; lia))|].
    unfold byteLength. rewrite length_app. cbn [header length Buffer_from]. lia.
  - intros Hbig.
    apply (buildMessage_length_out_of_range messageId flags (PString s)); [assumption|].
    cbn [Buffer_from]. unfold byteLength. lia.
Qed.

Lemma buildMessage_string_capacity_witness :
  Z.of_nat (length (lit "Test")) <= byteLength (utf8Write (lit "Test"))
  <= 3 * Z.of_nat (length (lit "Test"))
  /\ (exists wire : Buffer,
        buildMessage 5000 3 (PString (lit "Test")) = Normal wire
        /\ byteLength wire = 8 + byteLength (utf8Write (lit "Test")))
  /\ (65535 < Z.of_nat (length (lit "Test")) ->
      buildMessage 5000 3 (PString (lit "Test"))
      = Throw (ERR_OUT_OF_RANGE "value" 0 65535 (byteLength (utf8Write (lit "Test"))))).
Proof.
  destruct (buildMessage_string_capacity 5000 3 (lit "Test")) as (Hb & Hs & Hl).
  - pow2. lia.
  - pow2. lia.
  - unfold codeUnitsInRange. repeat (apply List.Forall_cons; [cbn; lia|]). apply List.Forall_nil.
  - split; [exact Hb|]. split; [apply Hs; cbn; lia|exact Hl].
Defined.

(** 21846 euro signs, three bytes each, are one character too many. *)
Example buildMessage_capacity_is_tight :
  buildMessage 5000 3 (PString (replicate (Z.to_nat 21846) 0x20AC))
  = Throw (ERR_OUT_OF_RANGE "value" 0 65535 65538).
Proof. vm_compute. reflexivity. Qed.

Lemma hexdumpCall_lineOf (buf : Buffer) (k : nat) :
  hexdumpCall buf (16 * Z.of_nat k)
  = lineOf (16 * Z.of_nat k) (take 16 (drop (16 * k) buf)).
Proof. unfold hexdumpCall. rewrite slice_chunk. reflexivity. Qed.

Lemma flat_map_map_Some {A B : Type} (g : A -> list B) (l : list A) :
  flat_map (fun i => map Some (g i)) l = map Some (concat (map g l)).
Proof.
  induction l as [|x l IH]; [reflexivity|].
  cbn [flat_map map concat]. by rewrite IH, map_app.
Qed.

Lemma hexdump_chunks (buf : Buffer) :
  concat (map (fun i => take 16 (drop (16 * i) buf)) (seq 0 (linesFrom buf 0))) = buf.
Proof. by rewrite (chunks_concat buf (linesFrom buf 0) 0). Qed.

(** X4 (the dump loses nothing). Reading the hex columns of the calls of
    [hexdump(buf)] back as hexadecimal bytes, line after line, gives the
    bytes of [buf]; hence two buffers with the same dump are equal. *)
Theorem hexdump_lossless :
  (forall buf : Buffer,
      exists calls : list logCall,
        hexdump buf = Some calls /\ undump calls = map Some buf)
  /\ (forall buf buf' : Buffer, hexdump buf = hexdump buf' -> buf = buf').
Proof.
  assert (Hun : forall buf : Buffer,
             undump (map (fun i => hexdumpCall buf (16 * Z.of_nat i))
                       (seq 0 (linesFrom buf 0)))
             = map Some buf).
  { intros buf. unfold undump. rewrite flat_map_concat_map, map_map.
    rewrite <- flat_map_concat_map.
    rewrite (flat_map_ext _ (fun i => map Some (take 16 (drop (16 * i) buf)))).
    - by rewrite flat_map_map_Some, hexdump_chunks.
    - intros i. rewrite hexdumpCall_lineOf. unfold hexColumnBytes, lineOf.
      cbn [lookup list_lookup]. apply reparse_hex_column. }
  split.
  - intros buf. eexists. split; [apply hexdump_calls|apply Hun].
  - intros buf buf' H. rewrite !hexdump_calls in H. injection H as H.
    pose proof (Hun buf) as H1. rewrite H, Hun in H1.
    clear -H1. revert buf H1.
    induction buf' as [|b buf' IH]; intros [|c buf] H; try discriminate; [reflexivity|].
    cbn [map] in H. injection H as -> H. f_equal. by apply IH.
Qed.

Lemma hexdump_lossless_witness :
  twentyBytes = Buffer_from (PString (lit "ABCDEFGHIJKLMNOPQRST")).
Proof.
  apply (proj2 hexdump_lossless twentyBytes
           (Buffer_from (PString (lit "ABCDEFGHIJKLMNOPQRST")))).
  reflexivity.
Defined.

Lemma printed_lineOf (offset : Z) (chunk : Buffer) :
  printed (lineOf offset chunk)
  = String.append
      (String.append (padStart (toString16 offset) 4 "0")
         (String.append "    "
            (String.append (padEnd (join " " (map hexOfByte chunk)) (bytesPerLine * 3) " ")
               "   ")))
      (join "" (map asciiOfByte chunk)).
Proof.
  unfold printed, lineOf, join. cbn [String.concat].
  rewrite !append_assoc. reflexivity.
Qed.

Lemma substring_skip (p : string) :
  forall (n m : nat) (s : string),
    String.substring (String.length p + n) m (String.append p s) = String.substring n m s.
Proof. induction p as [|c p IH]; intros n m s; [reflexivity|apply IH]. Qed.

Lemma substring_whole (s t : string) :
  String.substring 0 (String.length s) (String.append s t) = s.
Proof.
  induction s as [|c s IH]; cbn [String.length String.append String.substring].
  - by destruct t.
  - by rewrite IH.
Qed.

Lemma shownChar_asciiOfByte (chunk : Buffer) :
  join "" (map asciiOfByte chunk) = string_of_list_ascii (map shownChar chunk).
Proof. apply join_ascii. Qed.

(** X5 (the columns line up). For a buffer of at most 65536 bytes, every
    line [hexdump] prints is the offset in 4 hexadecimal digits, 4 spaces,
    the hex column of 48 characters, 3 spaces, and the ASCII column with
    one character per byte of the chunk: the offset is at characters 0-3,
    the hex column at characters 8-55 and the ASCII column from character
    59 on, in every line, and no line is longer than 75 characters. *)
Theorem hexdump_columns_aligned (buf : Buffer) :
  byteLength buf <= 65536 ->
  exists calls : list logCall,
    hexdump buf = Some calls
    /\ forall (k : nat) (call : logCall),
         calls !! k = Some call ->
         exists off hexcol asc : string,
           call = [off; "  "; hexcol; " "; asc]
           /\ printed call
              = String.append off
                  (String.append "    "
                     (String.append hexcol (String.append "   " asc)))
           /\ String.length off = 4%nat
           /\ parseHex off = Some (16 * Z.of_nat k)
           /\ hexcol = padEnd (join " " (map hexOfByte (take 16 (drop (16 * k) buf))))
                         48 " "
           /\ String.length hexcol = 48%nat
           /\ asc = string_of_list_ascii (map shownChar (take 16 (drop (16 * k) buf)))
           /\ String.length asc = length (take 16 (drop (16 * k) buf))
           /\ String.substring 0 4 (printed call) = off
           /\ String.substring 8 48 (printed call) = hexcol
           /\ String.substring 59 (length (take 16 (drop (16 * k) buf))) (printed call) = asc
           /\ String.length (printed call)
              = (59 + length (take 16 (drop (16 * k) buf)))%nat
           /\ (String.length (printed call) <= 75)%nat.
Proof.
  intros Hsmall.
  eexists. split; [apply hexdump_calls|].
  intros k call Hcall.
  assert (Hk : (k < linesFrom buf 0)%nat).
  { apply lookup_lt_Some in Hcall. by rewrite length_map, length_seq in Hcall. }
  rewrite hexdump_lookup in Hcall by assumption. injection Hcall as <-.
  apply linesFrom_0_lt in Hk.
  pose proof (chunk_length buf k) as Hlen.
  rewrite hexdumpCall_lineOf.
  set (chunk := take 16 (drop (16 * k) buf)) in *.
  assert (Hne : chunk <> []) by (intros E; rewrite E in Hlen; cbn [length] in Hlen; lia).
  set (off := padStart (toString16 (16 * Z.of_nat k)) 4 "0").
  set (hexcol := padEnd (join " " (map hexOfByte chunk)) 48 " ").
  set (asc := string_of_list_ascii (map shownChar chunk)).
  assert (Hoff : String.length off = 4%nat).
  { pose proof (length_padStart (toString16 (16 * Z.of_nat k)) 4 "0") as Hp.
    pose proof (length_toString16_le (16 * Z.of_nat k) 4) as Hle.
    change (16 ^ Z.of_nat 4) with 65536 in Hle. subst off. lia. }
  assert (Hhex : String.length hexcol = 48%nat).
  { pose proof (length_padEnd (join " " (map hexOfByte chunk)) 48 " ") as Hp.
    rewrite length_join_hex in Hp by assumption. subst hexcol. lia. }
  assert (Hasc : String.length asc = length chunk)
    by (subst asc; by rewrite length_string_of_list_ascii, length_map).
  assert (Hline : lineOf (16 * Z.of_nat k) chunk = [off; "  "; hexcol; " "; asc])
    by (unfold lineOf; by rewrite shownChar_asciiOfByte).
  assert (Hpr : printed (lineOf (16 * Z.of_nat k) chunk)
                = String.append off
                    (String.append "    " (String.append hexcol (String.append "   " asc)))).
  { rewrite Hline. unfold printed, join. cbn [String.concat]. reflexivity. }
  exists off, hexcol, asc.
  split; [exact Hline|]. split; [exact Hpr|]. split; [exact Hoff|].
  split.
  { subst off. unfold parseHex, padStart. rewrite parseHexFrom_fill_zeros.
    apply parseHex_toString16. lia. }
  split; [reflexivity|]. split; [exact Hhex|]. split; [reflexivity|].
  split; [exact Hasc|].
  rewrite Hpr.
  split; [rewrite <- Hoff; apply substring_whole|].
  split.
  { pose proof (substring_skip off 4 48
                  (String.append "    " (String.append hexcol (String.append "   " asc))))
      as E.
    rewrite Hoff in E. cbn [Nat.add] in E. rewrite E.
    rewrite (substring_skip "    " 0 48). rewrite <- Hhex. apply substring_whole. }
  split.
  { pose proof (substring_skip off 55 (length chunk)
                  (String.append "    " (String.append hexcol (String.append "   " asc))))
      as E.
    rewrite Hoff in E. cbn [Nat.add] in E. rewrite E.
    rewrite (substring_skip "    " 51 (length chunk)).
    pose proof (substring_skip hexcol 3 (length chunk) (String.append "   " asc)) as E'.
    rewrite Hhex in E'. cbn [Nat.add] in E'. rewrite E'.
    rewrite (substring_skip "   " 0 (length chunk)).
    rewrite <- Hasc.
    pose proof (substring_whole asc "") as E''. rewrite append_empty_r in E''. exact E''. }
  rewrite !length_append, Hoff, Hhex, Hasc. cbn [String.length].
  split; lia.
Qed.

Lemma hexdump_columns_aligned_witness :
  exists off hexcol asc : string,
    hexdumpCall twentyBytes (16 * Z.of_nat 1) = [off; "  "; hexcol; " "; asc]
    /\ printed (hexdumpCall twentyBytes (16 * Z.of_nat 1))
       = String.append off
           (String.append "    " (String.append hexcol (String.append "   " asc)))
    /\ String.length off = 4%nat
    /\ parseHex off = Some (16 * Z.of_nat 1)
    /\ hexcol = padEnd (join " " (map hexOfByte (take 16 (drop (16 * 1) twentyBytes))))
                  48 " "
    /\ String.length hexcol = 48%nat
    /\ asc = string_of_list_ascii (map shownChar (take 16 (drop (16 * 1) twentyBytes)))
    /\ String.length asc = length (take 16 (drop (16 * 1) twentyBytes))
    /\ String.substring 0 4 (printed (hexdumpCall twentyBytes (16 * Z.of_nat 1))) = off
    /\ String.substring 8 48 (printed (hexdumpCall twentyBytes (16 * Z.of_nat 1))) = hexcol
    /\ String.substring 59 (length (take 16 (drop (16 * 1) twentyBytes)))
         (printed (hexdumpCall twentyBytes (16 * Z.of_nat 1))) = asc
    /\ String.length (printed (hexdumpCall twentyBytes (16 * Z.of_nat 1)))
       = (59 + length (take 16 (drop (16 * 1) twentyBytes)))%nat
    /\ (String.length (printed (hexdumpCall twentyBytes (16 * Z.of_nat 1))) <= 75)%nat.
Proof.
  destruct (hexdump_columns_aligned twentyBytes) as (calls & Hd & Hall); [discriminate|].
  vm_compute in Hd. injection Hd as <-.
  apply (Hall 1%nat). reflexivity.
Defined.

Lemma concat_string_of_list_ascii (ls : list (list ascii)) :
  String.concat "" (map string_of_list_ascii ls) = string_of_list_ascii (concat ls).
Proof.
  induction ls as [|l [|l' ls] IH]; [reflexivity| |].
  - cbn. by rewrite app_nil_r.
  - change (String.concat "" (map string_of_list_ascii (l :: l' :: ls)))
      with (String.append (string_of_list_ascii l)
              (String.concat "" (map string_of_list_ascii (l' :: ls)))).
    rewrite IH. cbn [concat]. generalize (l' ++ concat ls). intros r.
    induction l as [|c l IHl]; [reflexivity|]. cbn. by rewrite IHl.
Qed.

(** X6 (the ASCII columns spell the buffer). The ASCII columns of the
    lines of [hexdump(buf)], put end to end, are the bytes of [buf] with
    every byte outside 32..126 shown as a dot; for a buffer of printable
    ASCII they are its text. *)
Theorem hexdump_ascii_text (buf : Buffer) :
  exists calls : list logCall,
    hexdump buf = Some calls
    /\ String.concat "" (map asciiColumn calls) = string_of_list_ascii (map shownChar buf)
    /\ (Forall (fun b => 32 <= u8 b <= 126) buf ->
        String.concat "" (map asciiColumn calls)
        = string_of_list_ascii (map ascii_of_byte buf)).
Proof.
  eexists. split; [apply hexdump_calls|].
  assert (H : String.concat ""
                (map asciiColumn
                   (map (fun i => hexdumpCall buf (16 * Z.of_nat i)) (seq 0 (linesFrom buf 0))))
              = string_of_list_ascii (map shownChar buf)).
  { rewrite map_map.
    rewrite (map_ext _ (fun i => string_of_list_ascii
                                   (map shownChar (take 16 (drop (16 * i) buf))))).
    - rewrite <- (map_map (fun i => map shownChar (take 16 (drop (16 * i) buf)))
                    string_of_list_ascii).
      rewrite concat_string_of_list_ascii. f_equal.
      rewrite <- (map_map (fun i => take 16 (drop (16 * i) buf)) (map shownChar)).
      rewrite <- concat_map. by rewrite hexdump_chunks.
    - intros i. rewrite hexdumpCall_lineOf. unfold asciiColumn, lineOf.
      cbn [lookup list_lookup]. apply join_ascii. }
  split; [exact H|].
  intros Hp. rewrite H. f_equal. clear H.
  induction Hp as [|b l Hb _ IH]; [reflexivity|].
  cbn [map]. rewrite IH. f_equal. unfold shownChar.
  destruct (Z.leb_spec 32 (u8 b)); [|lia].
  destruct (Z.leb_spec (u8 b) 126); [reflexivity|lia].
Qed.

Lemma hexdump_ascii_text_witness :
  exists calls : list logCall,
    hexdump twentyBytes = Some calls
    /\ String.concat "" (map asciiColumn calls)
       = string_of_list_ascii (map shownChar twentyBytes)
    /\ String.concat "" (map asciiColumn calls) = "ABCDEFGHIJKLMNOPQRST".
Proof.
  destruct (hexdump_ascii_text twentyBytes) as (calls & Hd & Ha & Hp).
  exists calls. split; [exact Hd|]. split; [exact Ha|].
  apply Hp. unfold twentyBytes.
  repeat (apply List.Forall_cons; [vm_compute; split; discriminate|]). apply List.Forall_nil.
Defined.

Lemma linesFrom_aligned (a : Buffer) (m : nat) :
  length a = (16 * m)%nat -> linesFrom a 0 = m.
Proof. intros H. unfold linesFrom, byteLength. rewrite H. Z.div_mod_to_equations. lia. Qed.

Lemma linesFrom_app_aligned (a b : Buffer) (m : nat) :
  length a = (16 * m)%nat -> linesFrom (a ++ b) 0 = (m + linesFrom b 0)%nat.
Proof.
  intros H. unfold linesFrom, byteLength. rewrite length_app, H.
  Z.div_mod_to_equations. lia.
Qed.

(** X7 (dump of a concatenation). When the length of [a] is a multiple of
    16, the dump of [a ++ b] is the dump of [a] followed by the lines of
    the dump of [b] with only their offset column changed. *)
Theorem hexdump_app_aligned (a b : Buffer) (m : nat) :
  length a = (16 * m)%nat ->
  exists callsA callsB rest : list logCall,
    hexdump a = Some callsA
    /\ hexdump b = Some callsB
    /\ hexdump (a ++ b) = Some (callsA ++ rest)
    /\ length callsA = m
    /\ map (drop 1) rest = map (drop 1) callsB.
Proof.
  intros Ha.
  exists (map (fun i => hexdumpCall a (16 * Z.of_nat i)) (seq 0 m)).
  exists (map (fun i => hexdumpCall b (16 * Z.of_nat i)) (seq 0 (linesFrom b 0))).
  exists (map (fun i => hexdumpCall (a ++ b) (16 * Z.of_nat i)) (seq m (linesFrom b 0))).
  split; [rewrite hexdump_calls; by rewrite (linesFrom_aligned a m)|].
  split; [apply hexdump_calls|].
  split.
  - rewrite hexdump_calls, (linesFrom_app_aligned a b m) by assumption.
    rewrite seq_app, map_app. cbn [Nat.add]. do 2 f_equal.
    apply map_ext_in. intros i Hi. apply in_seq in Hi.
    rewrite !hexdumpCall_lineOf. f_equal.
    rewrite drop_app_le by lia.
    apply take_app_le. rewrite length_drop. lia.
  - split; [by rewrite length_map, length_seq|].
    replace (seq m (linesFrom b 0)) with (Nat.add m <$> seq 0 (linesFrom b 0))
      by (rewrite fmap_add_seq; f_equal; lia).
    change (Nat.add m <$> seq 0 (linesFrom b 0)) with (map (Nat.add m) (seq 0 (linesFrom b 0))).
    rewrite !map_map. apply map_ext. intros j.
    rewrite !hexdumpCall_lineOf. unfold lineOf. cbn [drop].
    replace (drop (16 * (m + j)) (a ++ b)) with (drop (16 * j) b); [reflexivity|].
    rewrite drop_app_ge by lia. f_equal. lia.
Qed.

Lemma hexdump_app_aligned_witness :
  exists callsA callsB rest : list logCall,
    hexdump (take 16 twentyBytes) = Some callsA
    /\ hexdump (drop 16 twentyBytes) = Some callsB
    /\ hexdump (take 16 twentyBytes ++ drop 16 twentyBytes) = Some (callsA ++ rest)
    /\ length callsA = 1%nat
    /\ map (drop 1) rest = map (drop 1) callsB.
Proof.
  apply (hexdump_app_aligned (take 16 twentyBytes) (drop 16 twentyBytes) 1).
  reflexivity.
Defined.

Lemma Dir_nested_ind (P : Dir -> Prop) :
  (forall e, P (Unreadable e)) ->
  (forall items,
      Forall (fun item : string * option Dir =>
                match item.2 with Some sub => P sub | None => True end) items ->
      P (Listing items)) ->
  forall d, P d.
Proof.
  intros Hu Hl. fix F 1. intros [e|items]; [apply Hu|].
  apply Hl. induction items as [|[name [sub|]] items IH]; constructor;
    [apply F|exact IH|exact I|exact IH].
Qed.

Lemma traverse_Listing pathJoin currentDir items files :
  traverse pathJoin currentDir (Listing items) files
  = forOfItems pathJoin currentDir items files.
Proof.
  cbn [traverse]. revert files.
  induction items as [|[name [sub|]] items IH]; intros files; cbn [forOfItems];
    [reflexivity| |apply IH].
  destruct (traverse pathJoin (pathJoin currentDir name) sub files); [apply IH|reflexivity].
Qed.

Lemma firstError_Listing items :
  firstError (Listing items) = firstErrorItems items.
Proof.
  cbn [firstError].
  induction items as [|[name [sub|]] items IH]; cbn [firstErrorItems];
    [reflexivity| |apply IH].
  destruct (firstError sub); [reflexivity|apply IH].
Qed.

Section TraversalFacts.
Variable pathJoin : string -> string -> string.

Lemma traverse_outcome :
  forall (d : Dir) (currentDir : string) (files : list string),
    traverse pathJoin currentDir d files
    = match firstError d with
      | Some e => Rejected e
      | None => Resolved (files ++ allPaths pathJoin currentDir d)
      end.
Proof.
  induction d as [e|items IH] using Dir_nested_ind; intros currentDir files;
    [reflexivity|].
  rewrite traverse_Listing, firstError_Listing. cbn [allPaths].
  revert files.
  induction IH as [|[name [sub|]] items Hsub _ IHitems]; intros files;
    cbn [forOfItems firstErrorItems flat_map fst snd].
  - by rewrite app_nil_r.
  - cbn [snd] in Hsub. rewrite Hsub.
    destruct (firstError sub); [reflexivity|].
    rewrite IHitems. destruct (firstErrorItems items); [reflexivity|].
    by rewrite app_assoc.
  - rewrite IHitems. destruct (firstErrorItems items); [reflexivity|].
    by rewrite <- app_assoc.
Qed.

Lemma length_allPaths :
  forall (d : Dir) (currentDir : string),
    length (allPaths pathJoin currentDir d) = fileCount d.
Proof.
  induction d as [e|items IH] using Dir_nested_ind; intros currentDir; [reflexivity|].
  cbn [allPaths fileCount].
  induction IH as [|[name [sub|]] items Hsub _ IHitems];
    cbn [flat_map map list_sum fst snd]; [reflexivity| |].
  - cbn [snd] in Hsub. by rewrite length_app, Hsub, IHitems.
  - cbn [length app]. by rewrite IHitems.
Qed.

End TraversalFacts.

(** X8 ([getAllFiles] on a readable tree). When every directory below
    [dir] can be read, [getAllFiles(dir)] resolves with the joined paths of
    all entries that are not directories, depth first in the order of the
    listings, the paths of a subdirectory standing where the subdirectory
    is listed; their number is the number of such entries, and no
    directory is among them. *)
Theorem getAllFiles_lists_files
    (pathJoin : string -> string -> string) (dir : string) (root : Dir) :
  firstError root = None ->
  getAllFiles pathJoin dir root = Resolved (allPaths pathJoin dir root)
  /\ length (allPaths pathJoin dir root) = fileCount root.
Proof.
  intros H. unfold getAllFiles. rewrite traverse_outcome, H.
  split; [reflexivity|apply length_allPaths].
Qed.

Lemma getAllFiles_lists_files_witness :
  getAllFiles slashJoin "data" sampleTree
  = Resolved (allPaths slashJoin "data" sampleTree)
  /\ length (allPaths slashJoin "data" sampleTree) = fileCount sampleTree.
Proof. apply (getAllFiles_lists_files slashJoin "data" sampleTree). reflexivity. Defined.

Example getAllFiles_sampleTree :
  getAllFiles slashJoin "data" sampleTree
  = Resolved ["data/a.txt"; "data/sub/b.txt"; "data/c.txt"].
Proof. reflexivity. Qed.

(** X9 ([getAllFiles] on an unreadable directory). When some directory
    below [dir] cannot be read, [getAllFiles(dir)] rejects with the error
    of the first such directory in the order of the traversal, and
    resolves with no list, not even the paths collected before. *)
Theorem getAllFiles_rejects
    (pathJoin : string -> string -> string) (dir : string) (root : Dir) (e : string) :
  firstError root = Some e ->
  getAllFiles pathJoin dir root = Rejected e
  /\ (forall files : list string, getAllFiles pathJoin dir root <> Resolved files).
Proof.
  intros H. unfold getAllFiles. rewrite traverse_outcome, H.
  split; [reflexivity|discriminate].
Qed.

Lemma getAllFiles_rejects_witness :
  getAllFiles slashJoin "data" lockedTree = Rejected "EACCES"
  /\ (forall files : list string,
        getAllFiles slashJoin "data" lockedTree <> Resolved files).
Proof. apply (getAllFiles_rejects slashJoin "data" lockedTree "EACCES"). reflexivity. Defined.
